(** * vapi/internal: REST resource builder and deferred-error JSON body encoder

    A shallow embedding of [vapi/internal/internal.go] (package [internal] of
    govmomi) together with the parts of the Go standard library the package
    calls: [net/url] (query escaping, [url.Values]), [io] and [bytes]
    (readers), and [encoding/json] (the encoder, and the decoder used to state
    the round trip).

    Go strings are byte sequences; they are modelled by [string], whose
    characters are the 256 values of [ascii]. *)

From Stdlib Require Import ZArith NArith Ascii String List Bool Lia.
From Stdlib Require Import DecimalString DecimalZ DecimalFacts DecimalPos DecimalN.
From stdpp Require Import gmap strings list fin_maps sorting.

Local Open Scope string_scope.
Local Open Scope list_scope.

(** ** Go runtime values shared by the packages below *)

(** The values of Go's [error] interface that the modelled code can produce.
    [JSONUnsupportedType] is [*json.UnsupportedTypeError] (its argument names
    the Go kind), [OtherError] any other error, identified by its message. *)
Inductive error : Type :=
| EOF
| JSONUnsupportedType (kind : string)
| OtherError (msg : string).

(** What a goroutine panics with: a run-time nil dereference, or the value
    handed to [panic]. *)
Inductive panic : Type :=
| NilDereference
| PanicError (e : error).

(** Code of a byte, and the byte-range tests used by the library tables. *)
Definition code (c : ascii) : N := N_of_ascii c.

Definition in_range (lo hi : N) (c : ascii) : bool :=
  (lo <=? code c)%N && (code c <=? hi)%N.

Definition is_digit (c : ascii) : bool := in_range 48 57 c.
Definition is_lower (c : ascii) : bool := in_range 97 122 c.
Definition is_upper (c : ascii) : bool := in_range 65 90 c.
Definition is_alnum (c : ascii) : bool := is_lower c || is_upper c || is_digit c.

(** [c] occurs in [s] (Go's [strings.IndexByte(s, c) >= 0]). *)
Fixpoint mem_char (c : ascii) (s : string) : bool :=
  match s with
  | EmptyString => false
  | String d s' => Ascii.eqb c d || mem_char c s'
  end.

(** The double quote character. *)
Definition dquote : ascii := "034"%char.

(** The hexadecimal digit of a nibble, from a 16-character table. *)
Definition hex_digit (table : string) (n : N) : ascii :=
  match String.get (N.to_nat n) table with
  | Some c => c
  | None => "0"%char
  end.

Definition hi_nibble (c : ascii) : N := N.shiftr (code c) 4.
Definition lo_nibble (c : ascii) : N := N.land (code c) 15.

(** ** Package net/url *)
Module net_url.

Record Userinfo : Type := mkUserinfo
  { username : string; password : string; passwordSet : bool }.

(** [url.URL], field for field. *)
Record URL : Type := mkURL
  { Scheme : string;
    Opaque : string;
    User : option Userinfo;
    Host : string;
    Path : string;
    RawPath : string;
    ForceQuery : bool;
    RawQuery : string;
    Fragment : string }.

Definition set_Path (p : string) (u : URL) : URL :=
  mkURL (Scheme u) (Opaque u) (User u) (Host u) p (RawPath u)
        (ForceQuery u) (RawQuery u) (Fragment u).

Definition set_RawQuery (q : string) (u : URL) : URL :=
  mkURL (Scheme u) (Opaque u) (User u) (Host u) (Path u) (RawPath u)
        (ForceQuery u) q (Fragment u).

Inductive encoding : Type :=
| encodePath | encodePathSegment | encodeHost | encodeZone
| encodeUserPassword | encodeQueryComponent | encodeFragment.

Definition is_host_mode (mode : encoding) : bool :=
  match mode with encodeHost | encodeZone => true | _ => false end.

Definition is_fragment_mode (mode : encoding) : bool :=
  match mode with encodeFragment => true | _ => false end.

(** [shouldEscape]: whether byte [c] is written as [%XX] in [mode]. *)
Definition shouldEscape (c : ascii) (mode : encoding) : bool :=
  if is_alnum c then false
  else if is_host_mode mode
          && (mem_char c "!$&'()*+,;=:[]<>" || Ascii.eqb c dquote) then false
  else if mem_char c "-_.~" then false
  else if mem_char c "$&+,/:;=?@" then
    match mode with
    | encodePath => Ascii.eqb c "?"
    | encodePathSegment => mem_char c "/;,?"
    | encodeUserPassword => mem_char c "@/?:"
    | encodeQueryComponent => true
    | encodeFragment => false
    | encodeHost | encodeZone => true
    end
  else if is_fragment_mode mode && mem_char c "!()*" then false
  else true.

Definition upperhex : string := "0123456789ABCDEF".

(** What [escape] writes for one byte. *)
Definition escape_byte (mode : encoding) (c : ascii) : string :=
  match mode with
  | encodeQueryComponent =>
      if Ascii.eqb c " " then "+"
      else if shouldEscape c mode then
        String "%" (String (hex_digit upperhex (hi_nibble c))
                      (String (hex_digit upperhex (lo_nibble c)) ""))
      else String c ""
  | _ =>
      if shouldEscape c mode then
        String "%" (String (hex_digit upperhex (hi_nibble c))
                      (String (hex_digit upperhex (lo_nibble c)) ""))
      else String c ""
  end.

Fixpoint escape (s : string) (mode : encoding) : string :=
  match s with
  | EmptyString => EmptyString
  | String c s' => escape_byte mode c +:+ escape s' mode
  end.

Definition QueryEscape (s : string) : string := escape s encodeQueryComponent.

(** [url.Values] is [map[string][]string]. *)
Abbreviation Values := (gmap string (list string)).

(** [Values.Set]. *)
Definition Set_ (key value : string) (v : Values) : Values :=
  <[key := [value]]> v.

Definition key_le (a b : string) : Prop := Is_true (String.leb a b).

#[global] Instance key_le_dec : RelDecision key_le.
Proof. intros a b. unfold key_le. apply _. Defined.

(** One iteration of the inner loop of [Values.Encode]. *)
Definition write_pair (keyEscaped : string) (buf v : string) : string :=
  (if String.length buf =? 0 then buf else buf +:+ "&")%nat
    +:+ keyEscaped +:+ "=" +:+ QueryEscape v.

(** [Values.Encode]: the pairs, sorted by key, escaped and joined by [&]. *)
Definition Encode (v : Values) : string :=
  let keys := merge_sort key_le (map_to_list v).*1 in
  foldl (fun buf k => foldl (write_pair (QueryEscape k)) buf (default [] (v !! k)))
        "" keys.

End net_url.

(** ** Pointers and the heap

    [*url.URL] and [*Resource] are pointers: the builder mutates the URL its
    resource points to and hands back the pointer it was called on.  The heap
    maps allocated locations to the objects stored there; dereferencing a
    location that holds nothing is Go's nil dereference. *)
Definition ptr : Type := positive.

(** [Resource] wraps [url.URL] with helpers: [type Resource struct { u *url.URL }]. *)
Record Resource : Type := mkResource { u : ptr }.

Record heap : Type := mkHeap
  { urls : gmap ptr net_url.URL;
    resources : gmap ptr Resource }.

Definition empty_heap : heap := mkHeap ∅ ∅.

(** The result of running a piece of Go code from a heap. *)
Inductive outcome (A : Type) : Type :=
| Done (a : A) (h : heap)
| Panicked (p : panic).
Arguments Done {A} a h.
Arguments Panicked {A} p.

Definition M (A : Type) : Type := heap -> outcome A.

Definition ret {A} (a : A) : M A := fun h => Done a h.

Definition bind {A B} (m : M A) (k : A -> M B) : M B :=
  fun h => match m h with
           | Done a h' => k a h'
           | Panicked p => Panicked p
           end.

#[global] Instance M_ret : MRet M := @ret.
#[global] Instance M_bind : MBind M := fun A B k m => bind m k.

Definition throw {A} (p : panic) : M A := fun _ => Panicked p.

Definition new_url (v : net_url.URL) : M ptr :=
  fun h => let l := fresh (dom (urls h)) in
           Done l (mkHeap (<[l := v]> (urls h)) (resources h)).

Definition new_resource (v : Resource) : M ptr :=
  fun h => let l := fresh (dom (resources h)) in
           Done l (mkHeap (urls h) (<[l := v]> (resources h))).

Definition load_url (p : ptr) : M net_url.URL :=
  fun h => match urls h !! p with
           | Some v => Done v h
           | None => Panicked NilDereference
           end.

Definition load_resource (p : ptr) : M Resource :=
  fun h => match resources h !! p with
           | Some v => Done v h
           | None => Panicked NilDereference
           end.

Definition store_url (p : ptr) (v : net_url.URL) : M unit :=
  fun h => match urls h !! p with
           | Some _ => Done tt (mkHeap (<[p := v]> (urls h)) (resources h))
           | None => Panicked NilDereference
           end.

(** The URL a resource pointer leads to, if both pointers are live. *)
Definition resource_url (h : heap) (r : ptr) : option net_url.URL :=
  res ← resources h !! r; urls h !! u res.

(** The result of a Go function that returns [(T, error)]. *)
Inductive result (A : Type) : Type :=
| Ok (a : A)
| Err (e : error).
Arguments Ok {A} a.
Arguments Err {A} e.

Fixpoint take_bytes (n : nat) (s : string) : string :=
  match n, s with
  | S n', String c s' => String c (take_bytes n' s')
  | _, _ => EmptyString
  end.

Fixpoint drop_bytes (n : nat) (s : string) : string :=
  match n, s with
  | S n', String _ s' => drop_bytes n' s'
  | _, _ => s
  end.

(** ** Packages io and bytes *)
Module io.

(** What one call [Read(p)] hands back: the count [n], the bytes written to
    the front of [p], and the error. *)
Record read_result : Type := mkRead
  { count : Z; data : string; err : option error }.

(** The interface [io.Reader]: [Read] on a buffer of the given length
    answers and leaves the reader in a new state. *)
Class Reader_methods (R : Type) : Type :=
  Read : R -> nat -> read_result * R.

(** A value of interface type [io.Reader]: a dynamic type that implements
    the interface, and a value of it. *)
Record Reader : Type := mkReader
  { dynamic : Type;
    methods : Reader_methods dynamic;
    value : dynamic }.
Arguments mkReader {dynamic methods} value.

Definition Reader_Read (r : Reader) (n : nat) : read_result * Reader :=
  let '(res, v) := @Read _ (methods r) (value r) n in
  (res, @mkReader _ (methods r) v).

(** The reader built by [io.MultiReader(readers...)] from no readers at
    all: its loop over the remaining readers is skipped and [Read] returns
    [0, EOF]. *)
Inductive multiReader : Type := multiReader_none.

#[global] Instance multiReader_Read : Reader_methods multiReader :=
  fun r _ => (mkRead 0 "" (Some EOF), r).

Definition MultiReader_none : Reader := mkReader multiReader_none.

(** [*bytes.Buffer], by its unread bytes. *)
Record Buffer : Type := mkBuffer { unread : string }.

(** [Buffer.Read]: an empty buffer answers [0, EOF] (or [0, nil] to a read
    of no bytes); otherwise as many bytes as fit are copied out. *)
#[global] Instance Buffer_Read : Reader_methods Buffer :=
  fun b n =>
    match unread b with
    | EmptyString =>
        (mkRead 0 "" (match n with O => None | S _ => Some EOF end), b)
    | String _ _ =>
        let k := Nat.min n (String.length (unread b)) in
        (mkRead (Z.of_nat k) (take_bytes k (unread b)) None,
         mkBuffer (drop_bytes k (unread b)))
    end.

(** [Buffer.Write]. *)
Definition Buffer_Write (b : Buffer) (p : string) : Buffer :=
  mkBuffer (unread b +:+ p).

(** Reading a reader to its end with buffers of [chunk] bytes, as
    [io.ReadAll] does: the bytes read until [EOF], or the first other error.
    A reader that answers a negative count makes the real loop panic when it
    reslices its buffer; here the count is only used through the data. *)
Fixpoint ReadAll (fuel chunk : nat) (r : Reader) : option (result string) :=
  match fuel with
  | O => None
  | S fuel' =>
      let '(res, r') := Reader_Read r chunk in
      match err res with
      | Some EOF => Some (Ok (data res))
      | Some e => Some (Err e)
      | None =>
          match ReadAll fuel' chunk r' with
          | Some (Ok rest) => Some (Ok (data res +:+ rest))
          | other => other
          end
      end
  end.

End io.

(** ** Packages unicode/utf8 and unicode/utf16 *)
Module utf8.

Definition RuneError : N := 0xFFFD.
Definition RuneSelf : N := 0x80.

(** The range the second byte of a sequence must lie in, by first byte. *)
Definition accept_range (c0 : N) : N * N :=
  if (c0 =? 0xE0)%N then (0xA0, 0xBF)%N
  else if (c0 =? 0xED)%N then (0x80, 0x9F)%N
  else if (c0 =? 0xF0)%N then (0x90, 0xBF)%N
  else if (c0 =? 0xF4)%N then (0x80, 0x8F)%N
  else (0x80, 0xBF)%N.

Definition is_cont (b : N) : bool := (0x80 <=? b)%N && (b <=? 0xBF)%N.

(** [utf8.DecodeRuneInString]: the first rune of [s] and its width in bytes;
    [(RuneError, 1)] for an invalid sequence, [(RuneError, 0)] for no input. *)
Definition DecodeRune (s : string) : N * nat :=
  match s with
  | EmptyString => (RuneError, 0)
  | String p0 s1 =>
      let c0 := code p0 in
      if (c0 <? RuneSelf)%N then (c0, 1)
      else if (c0 <? 0xC2)%N || (0xF4 <? c0)%N then (RuneError, 1)
      else
        match s1 with
        | EmptyString => (RuneError, 1)
        | String p1 s2 =>
            let b1 := code p1 in
            let '(lo, hi) := accept_range c0 in
            if (b1 <? lo)%N || (hi <? b1)%N then (RuneError, 1)
            else if (c0 <? 0xE0)%N then
              (N.lor (N.shiftl (N.land c0 0x1F) 6) (N.land b1 0x3F), 2)
            else
              match s2 with
              | EmptyString => (RuneError, 1)
              | String p2 s3 =>
                  let b2 := code p2 in
                  if negb (is_cont b2) then (RuneError, 1)
                  else if (c0 <? 0xF0)%N then
                    (N.lor (N.shiftl (N.land c0 0x0F) 12)
                       (N.lor (N.shiftl (N.land b1 0x3F) 6) (N.land b2 0x3F)), 3)
                  else
                    match s3 with
                    | EmptyString => (RuneError, 1)
                    | String p3 _ =>
                        let b3 := code p3 in
                        if negb (is_cont b3) then (RuneError, 1)
                        else
                          (N.lor (N.shiftl (N.land c0 0x07) 18)
                             (N.lor (N.shiftl (N.land b1 0x3F) 12)
                                (N.lor (N.shiftl (N.land b2 0x3F) 6)
                                   (N.land b3 0x3F))), 4)
                    end
              end
        end
  end.

(** [byte(x)]: the low eight bits. *)
Definition byte (x : N) : ascii := ascii_of_N (N.land x 0xFF).

Definition cont_byte (x : N) : ascii := byte (N.lor 0x80 (N.land x 0x3F)).

Definition encode3 (r : N) : string :=
  String (byte (N.lor 0xE0 (N.shiftr r 12)))
    (String (cont_byte (N.shiftr r 6)) (String (cont_byte r) "")).

(** [utf8.EncodeRune]: the UTF-8 bytes of rune [r]; surrogates and values
    above [MaxRune] are written as [RuneError]. *)
Definition EncodeRune (r : N) : string :=
  if (r <=? 0x7F)%N then String (byte r) ""
  else if (r <=? 0x7FF)%N then
    String (byte (N.lor 0xC0 (N.shiftr r 6))) (String (cont_byte r) "")
  else if (0x10FFFF <? r)%N || ((0xD800 <=? r)%N && (r <=? 0xDFFF)%N) then
    encode3 RuneError
  else if (r <=? 0xFFFF)%N then encode3 r
  else
    String (byte (N.lor 0xF0 (N.shiftr r 18)))
      (String (cont_byte (N.shiftr r 12))
         (String (cont_byte (N.shiftr r 6)) (String (cont_byte r) ""))).

End utf8.

Module utf16.

Definition IsSurrogate (r : N) : bool := (0xD800 <=? r)%N && (r <? 0xE000)%N.

(** [utf16.DecodeRune]: the rune of a surrogate pair, [U+FFFD] if the pair
    is not valid. The second argument is absent when [getu4] found no
    escape. *)
Definition DecodeRune (r1 : N) (r2 : option N) : N :=
  match r2 with
  | Some r2 =>
      if (0xD800 <=? r1)%N && (r1 <? 0xDC00)%N
         && (0xDC00 <=? r2)%N && (r2 <? 0xE000)%N
      then (N.lor (N.shiftl (r1 - 0xD800) 10) (r2 - 0xDC00) + 0x10000)%N
      else utf8.RuneError
  | None => utf8.RuneError
  end.

End utf16.

(** ** Package encoding/json *)
Module encoding_json.

(** A JSON document. Members of an object are kept in document order.
    Numbers are the integers, each kept exactly: numbers with a fraction or
    an exponent, and the rounding of a decoder that reads numbers as
    [float64], are floating point and outside this model. *)
Unset Elimination Schemes.
Inductive json : Type :=
| JNull
| JBool (b : bool)
| JNumber (n : Z)
| JString (s : string)
| JArray (elems : list json)
| JObject (members : list (string * json)).

(** A struct field as the encoder sees it: its Go name and its [json:]
    tag (the name the tag gives, empty if it gives none it can use, and
    [omitempty]). *)
Record field : Type := mkField
  { name : string; tag_name : string; omitempty : bool }.

(** The key a field is written under. *)
Definition key (f : field) : string :=
  match tag_name f with
  | EmptyString => name f
  | _ => tag_name f
  end.

(** The Go values handed to the encoder as [interface{}]: [VNil] is a nil
    pointer, interface, or slice, [VPtr] a non-nil pointer, [VSlice] a
    non-nil slice whose elements are not bytes, [VStruct] a struct with the
    fields the encoder selects, in order, and [VChan], [VFunc] values of
    kinds the encoder does not support. *)
Inductive value : Type :=
| VNil
| VBool (b : bool)
| VInt (n : Z)
| VString (s : string)
| VPtr (v : value)
| VSlice (vs : list value)
| VStruct (fs : list (field * value))
| VChan
| VFunc.
Set Elimination Schemes.

(** [isEmptyValue]: what [omitempty] leaves out. *)
Definition isEmptyValue (v : value) : bool :=
  match v with
  | VNil => true
  | VBool b => negb b
  | VInt n => (n =? 0)%Z
  | VString s => (String.length s =? 0)%nat
  | VSlice vs => (List.length vs =? 0)%nat
  | _ => false
  end.

Definition hex : string := "0123456789abcdef".

(** [htmlSafeSet]: the ASCII bytes written as they are. *)
Definition htmlSafe (c : ascii) : bool :=
  in_range 32 127 c && negb (mem_char c "\<>&" || Ascii.eqb c dquote).

Definition backslash : ascii := "\"%char.

(** What the string encoder writes for an ASCII byte outside [htmlSafeSet]. *)
Definition escape_ascii (c : ascii) : string :=
  if Ascii.eqb c backslash || Ascii.eqb c dquote then String backslash (String c "")
  else if Ascii.eqb c "008" then "\b"
  else if Ascii.eqb c "012" then "\f"
  else if Ascii.eqb c "010" then "\n"
  else if Ascii.eqb c "013" then "\r"
  else if Ascii.eqb c "009" then "\t"
  else "\u00" +:+ String (hex_digit hex (hi_nibble c))
                   (String (hex_digit hex (lo_nibble c)) "").

(** What the string encoder writes for a byte that starts no valid
    sequence: the escape of [U+FFFD]. *)
Definition replacement_escape : string := "\ufffd".

(** The loop of [encodeState.string] (with [escapeHTML] set, as an
    [Encoder] has it) from position [i] on; [s] is what is left of the
    string there and [fuel] bounds the iterations. *)
Fixpoint string_body (fuel : nat) (s : string) : string :=
  match fuel, s with
  | S fuel', String b s' =>
      if (code b <? utf8.RuneSelf)%N then
        (if htmlSafe b then String b "" else escape_ascii b)
          +:+ string_body fuel' s'
      else
        let '(c, size) := utf8.DecodeRune s in
        if (c =? utf8.RuneError)%N && (size =? 1)%nat then
          replacement_escape +:+ string_body fuel' (drop_bytes size s)
        else if (c =? 0x2028)%N || (c =? 0x2029)%N then
          "\u202" +:+ String (hex_digit hex (N.land c 0xF)) ""
            +:+ string_body fuel' (drop_bytes size s)
        else
          take_bytes size s +:+ string_body fuel' (drop_bytes size s)
  | _, _ => EmptyString
  end.

(** [encodeState.string]: a Go string as a JSON string literal. *)
Definition quote (s : string) : string :=
  String dquote (string_body (String.length s) s +:+ String dquote "").

(** The elements of an array or object, separated by commas and closed. *)
Fixpoint sep_close (close : string) (xs : list string) : string :=
  match xs with
  | [] => close
  | x :: xs' =>
      x +:+ match xs' with
            | [] => close
            | _ :: _ => "," +:+ sep_close close xs'
            end
  end.

(** [json.Marshal], for an [Encoder]: the compact JSON text of a value, or
    the error of the first value met that cannot be encoded. *)
Fixpoint Marshal (v : value) : result string :=
  match v with
  | VNil => Ok "null"
  | VBool b => Ok (if b then "true" else "false")
  | VInt n => Ok (NilZero.string_of_int (Z.to_int n))
  | VString s => Ok (quote s)
  | VPtr v' => Marshal v'
  | VSlice vs =>
      match
        (fix elems (vs : list value) : result (list string) :=
           match vs with
           | [] => Ok []
           | v :: vs' =>
               match Marshal v with
               | Err e => Err e
               | Ok b =>
                   match elems vs' with
                   | Err e => Err e
                   | Ok bs => Ok (b :: bs)
                   end
               end
           end) vs
      with
      | Ok bs => Ok ("[" +:+ sep_close "]" bs)
      | Err e => Err e
      end
  | VStruct fs =>
      match
        (fix members (fs : list (field * value)) : result (list string) :=
           match fs with
           | [] => Ok []
           | (f, v) :: fs' =>
               if omitempty f && isEmptyValue v then members fs'
               else
                 match Marshal v with
                 | Err e => Err e
                 | Ok b =>
                     match members fs' with
                     | Err e => Err e
                     | Ok bs => Ok ((quote (key f) +:+ ":" +:+ b) :: bs)
                     end
                 end
           end) fs
      with
      | Ok bs => Ok ("{" +:+ sep_close "}" bs)
      | Err e => Err e
      end
  | VChan => Err (JSONUnsupportedType "chan")
  | VFunc => Err (JSONUnsupportedType "func")
  end.

(** [Encoder.Encode] on an encoder that writes to buffer [w]: the text of
    [v] and a newline are written, or nothing is and the error returned. *)
Definition Encoder_Encode (w : io.Buffer) (v : value) : io.Buffer * option error :=
  match Marshal v with
  | Ok text => (io.Buffer_Write w (text +:+ String "010" ""), None)
  | Err e => (w, Some e)
  end.

(** *** The JSON a value stands for *)

(** A Go string read as text: each rune decoded and written back, so that
    a byte that starts no valid sequence becomes [U+FFFD]. *)
Fixpoint valid_text (fuel : nat) (s : string) : string :=
  match fuel, s with
  | S fuel', String b s' =>
      if (code b <? utf8.RuneSelf)%N then String b (valid_text fuel' s')
      else
        let '(c, size) := utf8.DecodeRune s in
        utf8.EncodeRune c +:+ valid_text fuel' (drop_bytes size s)
  | _, _ => EmptyString
  end.

Definition text (s : string) : string := valid_text (String.length s) s.

(** The JSON representation of a value: the document its encoding denotes. *)
Fixpoint to_json (v : value) : result json :=
  match v with
  | VNil => Ok JNull
  | VBool b => Ok (JBool b)
  | VInt n => Ok (JNumber n)
  | VString s => Ok (JString (text s))
  | VPtr v' => to_json v'
  | VSlice vs =>
      match
        (fix elems (vs : list value) : result (list json) :=
           match vs with
           | [] => Ok []
           | v :: vs' =>
               match to_json v with
               | Err e => Err e
               | Ok j =>
                   match elems vs' with
                   | Err e => Err e
                   | Ok js => Ok (j :: js)
                   end
               end
           end) vs
      with
      | Ok js => Ok (JArray js)
      | Err e => Err e
      end
  | VStruct fs =>
      match
        (fix members (fs : list (field * value)) : result (list (string * json)) :=
           match fs with
           | [] => Ok []
           | (f, v) :: fs' =>
               if omitempty f && isEmptyValue v then members fs'
               else
                 match to_json v with
                 | Err e => Err e
                 | Ok j =>
                     match members fs' with
                     | Err e => Err e
                     | Ok js => Ok ((text (key f), j) :: js)
                     end
                 end
           end) fs
      with
      | Ok js => Ok (JObject js)
      | Err e => Err e
      end
  | VChan => Err (JSONUnsupportedType "chan")
  | VFunc => Err (JSONUnsupportedType "func")
  end.

(** *** The decoder, into a generic document *)

Definition is_space (c : ascii) : bool :=
  Ascii.eqb c " " || Ascii.eqb c "009" || Ascii.eqb c "013" || Ascii.eqb c "010".

Fixpoint skip_space (s : string) : string :=
  match s with
  | String c s' => if is_space c then skip_space s' else s
  | EmptyString => s
  end.

Definition hex_value (c : ascii) : option N :=
  if in_range 48 57 c then Some (code c - 48)%N
  else if in_range 97 102 c then Some (code c - 97 + 10)%N
  else if in_range 65 70 c then Some (code c - 65 + 10)%N
  else None.

(** [getu4]: the value of the escape [\uXXXX] that [s] starts with. *)
Definition getu4 (s : string) : option N :=
  match s with
  | String b (String c (String c1 (String c2 (String c3 (String c4 _))))) =>
      if Ascii.eqb b backslash && Ascii.eqb c "u" then
        h1 ← hex_value c1; h2 ← hex_value c2;
        h3 ← hex_value c3; h4 ← hex_value c4;
        Some (((h1 * 16 + h2) * 16 + h3) * 16 + h4)%N
      else None
  | _ => None
  end.

(** The character a one-letter escape stands for. *)
Definition simple_escape (c : ascii) : option ascii :=
  if Ascii.eqb c dquote || Ascii.eqb c backslash || Ascii.eqb c "/" then Some c
  else if Ascii.eqb c "b" then Some "008"%char
  else if Ascii.eqb c "f" then Some "012"%char
  else if Ascii.eqb c "n" then Some "010"%char
  else if Ascii.eqb c "r" then Some "013"%char
  else if Ascii.eqb c "t" then Some "009"%char
  else None.

Definition prepend (p : string) (r : option (string * string)) : option (string * string) :=
  match r with
  | Some (t, rest) => Some (p +:+ t, rest)
  | None => None
  end.

(** A string literal past its opening quote (the scanner's string states
    and [unquote] in one pass): the string it denotes and the input after
    the closing quote. *)
Fixpoint parse_string (fuel : nat) (s : string) : option (string * string) :=
  match fuel, s with
  | S fuel', String c s' =>
      if Ascii.eqb c dquote then Some (EmptyString, s')
      else if Ascii.eqb c backslash then
        match s' with
        | EmptyString => None
        | String d s'' =>
            if Ascii.eqb d "u" then
              match getu4 s with
              | None => None
              | Some rr =>
                  let s6 := drop_bytes 6 s in
                  if utf16.IsSurrogate rr then
                    let dec := utf16.DecodeRune rr (getu4 s6) in
                    if negb (dec =? utf8.RuneError)%N then
                      prepend (utf8.EncodeRune dec)
                              (parse_string fuel' (drop_bytes 6 s6))
                    else
                      prepend (utf8.EncodeRune utf8.RuneError)
                              (parse_string fuel' s6)
                  else prepend (utf8.EncodeRune rr) (parse_string fuel' s6)
              end
            else
              match simple_escape d with
              | Some ch => prepend (String ch "") (parse_string fuel' s'')
              | None => None
              end
        end
      else if (code c <? 32)%N then None
      else if (code c <? utf8.RuneSelf)%N then
        prepend (String c "") (parse_string fuel' s')
      else
        let '(rr, size) := utf8.DecodeRune s in
        prepend (utf8.EncodeRune rr) (parse_string fuel' (drop_bytes size s))
  | _, _ => None
  end.

Definition digit_of (c : ascii) : option (Decimal.uint -> Decimal.uint) :=
  if Ascii.eqb c "0" then Some Decimal.D0
  else if Ascii.eqb c "1" then Some Decimal.D1
  else if Ascii.eqb c "2" then Some Decimal.D2
  else if Ascii.eqb c "3" then Some Decimal.D3
  else if Ascii.eqb c "4" then Some Decimal.D4
  else if Ascii.eqb c "5" then Some Decimal.D5
  else if Ascii.eqb c "6" then Some Decimal.D6
  else if Ascii.eqb c "7" then Some Decimal.D7
  else if Ascii.eqb c "8" then Some Decimal.D8
  else if Ascii.eqb c "9" then Some Decimal.D9
  else None.

(** The longest run of digits [s] starts with, and what follows it. *)
Fixpoint scan_digits (s : string) : Decimal.uint * string :=
  match s with
  | String c s' =>
      match digit_of c with
      | Some d => let '(ds, rest) := scan_digits s' in (d ds, rest)
      | None => (Decimal.Nil, s)
      end
  | EmptyString => (Decimal.Nil, s)
  end.

Definition starts_fraction (s : string) : bool :=
  match s with
  | String c _ => Ascii.eqb c "." || Ascii.eqb c "e" || Ascii.eqb c "E"
  | EmptyString => false
  end.

(** An integer literal: an optional minus sign and digits, without a
    leading zero before other digits. *)
Definition parse_number (s : string) : option (Z * string) :=
  let '(neg, s1) :=
    match s with
    | String c s' => if Ascii.eqb c "-" then (true, s') else (false, s)
    | EmptyString => (false, s)
    end in
  let '(ds, rest) := scan_digits s1 in
  match ds with
  | Decimal.Nil => None
  | Decimal.D0 (Decimal.D0 _ | Decimal.D1 _ | Decimal.D2 _ | Decimal.D3 _
               | Decimal.D4 _ | Decimal.D5 _ | Decimal.D6 _ | Decimal.D7 _
               | Decimal.D8 _ | Decimal.D9 _) => None
  | _ =>
      if starts_fraction rest then None
      else Some (Z.of_int (if neg then Decimal.Neg ds else Decimal.Pos ds), rest)
  end.

(** [s] starts with the literal [lit]: what follows it. *)
Fixpoint strip_prefix (lit s : string) : option string :=
  match lit, s with
  | EmptyString, _ => Some s
  | String a lit', String b s' => if Ascii.eqb a b then strip_prefix lit' s' else None
  | String _ _, EmptyString => None
  end.

(** One value, after optional white space; then the elements of an array
    after its first bracket or a comma, and the members of an object.
    [fuel] bounds the calls; the bound of the scanner on the depth of
    nesting is not modelled. *)
Fixpoint parse_value (fuel : nat) (s : string) : option (json * string) :=
  match fuel with
  | O => None
  | S fuel' =>
      match skip_space s with
      | EmptyString => None
      | String c s' =>
          if Ascii.eqb c "{" then
            match skip_space s' with
            | String d s'' =>
                if Ascii.eqb d "}" then Some (JObject [], s'')
                else '(ms, rest) ← parse_members fuel' s'; Some (JObject ms, rest)
            | EmptyString => None
            end
          else if Ascii.eqb c "[" then
            match skip_space s' with
            | String d s'' =>
                if Ascii.eqb d "]" then Some (JArray [], s'')
                else '(js, rest) ← parse_elements fuel' s'; Some (JArray js, rest)
            | EmptyString => None
            end
          else if Ascii.eqb c dquote then
            '(t, rest) ← parse_string (String.length s') s'; Some (JString t, rest)
          else if Ascii.eqb c "n" then
            rest ← strip_prefix "ull" s'; Some (JNull, rest)
          else if Ascii.eqb c "t" then
            rest ← strip_prefix "rue" s'; Some (JBool true, rest)
          else if Ascii.eqb c "f" then
            rest ← strip_prefix "alse" s'; Some (JBool false, rest)
          else
            '(n, rest) ← parse_number (String c s'); Some (JNumber n, rest)
      end
  end
with parse_elements (fuel : nat) (s : string) : option (list json * string) :=
  match fuel with
  | O => None
  | S fuel' =>
      '(j, rest) ← parse_value fuel' s;
      match skip_space rest with
      | String c rest' =>
          if Ascii.eqb c "," then
            '(js, rest'') ← parse_elements fuel' rest'; Some (j :: js, rest'')
          else if Ascii.eqb c "]" then Some ([j], rest')
          else None
      | EmptyString => None
      end
  end
with parse_members (fuel : nat) (s : string) : option (list (string * json) * string) :=
  match fuel with
  | O => None
  | S fuel' =>
      match skip_space s with
      | String q s1 =>
          if Ascii.eqb q dquote then
            '(k, s2) ← parse_string (String.length s1) s1;
            match skip_space s2 with
            | String c s3 =>
                if Ascii.eqb c ":" then
                  '(j, rest) ← parse_value fuel' s3;
                  match skip_space rest with
                  | String d rest' =>
                      if Ascii.eqb d "," then
                        '(ms, rest'') ← parse_members fuel' rest';
                        Some ((k, j) :: ms, rest'')
                      else if Ascii.eqb d "}" then Some ([(k, j)], rest')
                      else None
                  | EmptyString => None
                  end
                else None
            | EmptyString => None
            end
          else None
      | EmptyString => None
      end
  end.

(** [json.Unmarshal] into an empty interface: the document [data] holds,
    if [data] is one JSON value and white space. *)
Definition Unmarshal (data : string) : option json :=
  '(j, rest) ← parse_value (S (String.length data)) data;
  match skip_space rest with
  | EmptyString => Some j
  | String _ _ => None
  end.

End encoding_json.

(** ** Packages vim25/types and vim25/mo *)
Module types.

(** Modelled from the spec: [types.ManagedObjectReference], declared in
    package vim25/types: the generic object reference, a type name paired
    with an identifier held in a field named [Value]. *)
Record ManagedObjectReference : Type := mkManagedObjectReference
  { Type_ : string; Value : string }.

End types.

Module mo.

(** Modelled from the spec: the interface [mo.Reference], declared in
    package vim25/mo: anything that answers [Reference()] with a
    managed-object reference. *)
Class Reference (A : Type) : Type :=
  Reference_ : A -> types.ManagedObjectReference.

End mo.

(** ** Package vapi/internal *)
Module internal.

(** VAPI REST Paths *)
Definition Path : string := "/rest".
Definition SessionPath : string := "/com/vmware/cis/session".
Definition CategoryPath : string := "/com/vmware/cis/tagging/category".
Definition TagPath : string := "/com/vmware/cis/tagging/tag".
Definition AssociationPath : string := "/com/vmware/cis/tagging/tag-association".
Definition LibraryPath : string := "/com/vmware/content/library".
Definition LibraryItemFileData : string := "/com/vmware/cis/data".
Definition LibraryItemPath : string := "/com/vmware/content/library/item".
Definition LibraryItemFilePath : string := "/com/vmware/content/library/item/file".
Definition LibraryItemUpdateSession : string :=
  "/com/vmware/content/library/item/update-session".
Definition LibraryItemUpdateSessionFile : string :=
  "/com/vmware/content/library/item/updatesession/file".
Definition LibraryItemDownloadSession : string :=
  "/com/vmware/content/library/item/download-session".
Definition LibraryItemDownloadSessionFile : string :=
  "/com/vmware/content/library/item/downloadsession/file".
Definition LocalLibraryPath : string := "/com/vmware/content/local-library".
Definition SubscribedLibraryPath : string := "/com/vmware/content/subscribed-library".
Definition VCenterOVFLibraryItem : string := "/com/vmware/vcenter/ovf/library-item".
Definition SessionCookieName : string := "vmware-api-session-id".

(** [AssociatedObject] is the same structure as
    [types.ManagedObjectReference], just with a different field name in
    JSON ([id] instead of [value]). *)
Record AssociatedObject : Type := mkAssociatedObject
  { Type_ : string;   (* `json:"type"` *)
    Value : string    (* `json:"id"` *) }.

(** [Reference] implements [mo.Reference]: the struct conversion
    [types.ManagedObjectReference(o)] copies the fields in order. *)
Definition Reference (o : AssociatedObject) : types.ManagedObjectReference :=
  types.mkManagedObjectReference (Type_ o) (Value o).

#[global] Instance AssociatedObject_Reference : mo.Reference AssociatedObject :=
  Reference.

(** The conversion [AssociatedObject(ref)] of a managed-object reference. *)
Definition AssociatedObject_of (ref : types.ManagedObjectReference) : AssociatedObject :=
  mkAssociatedObject (types.Type_ ref) (types.Value ref).

(** [Association] for tag-association requests. [ObjectID] is a pointer,
    nil ([None]) or to an [AssociatedObject] of its own. *)
Record Association : Type := mkAssociation
  { ObjectID : option AssociatedObject  (* `json:"object_id,omitempty"` *) }.

(** [NewAssociation] returns an [Association], converting [ref] to an
    [AssociatedObject]. *)
Definition NewAssociation {A} `{mo.Reference A} (ref : A) : Association :=
  let obj := AssociatedObject_of (mo.Reference_ ref) in
  mkAssociation (Some obj).

(** The two structs as the JSON encoder walks them, by their fields and
    tags. *)
Definition AssociatedObject_value (o : AssociatedObject) : encoding_json.value :=
  encoding_json.VStruct
    [ (encoding_json.mkField "Type" "type" false, encoding_json.VString (Type_ o));
      (encoding_json.mkField "Value" "id" false, encoding_json.VString (Value o)) ].

Definition Association_value (a : Association) : encoding_json.value :=
  encoding_json.VStruct
    [ (encoding_json.mkField "ObjectID" "object_id" true,
       match ObjectID a with
       | Some o => encoding_json.VPtr (AssociatedObject_value o)
       | None => encoding_json.VNil
       end) ].

(** [CloneURL] defines an interface for cloned urls: a method [URL()]
    that returns a pointer to a URL. *)
Class CloneURL (C : Type) : Type :=
  CloneURL_URL : C -> M ptr.

(** [URL] creates a URL resource. *)
Definition URL {C} `{CloneURL C} (c : C) (path : string) : M ptr :=
  p ← CloneURL_URL c;
  r ← new_resource (mkResource p);
  res ← load_resource r;
  v ← load_url (u res);
  store_url (u res) (net_url.set_Path (Path +:+ path) v);;
  mret r.

(** [WithID] appends id to the [URL.Path]. *)
Definition WithID (r : ptr) (id : string) : M ptr :=
  res ← load_resource r;
  v ← load_url (u res);
  store_url (u res) (net_url.set_Path (net_url.Path v +:+ ("/id:" +:+ id)) v);;
  mret r.

(** [WithAction] sets the [URL.RawQuery] to the action. *)
Definition WithAction (r : ptr) (action : string) : M ptr :=
  res ← load_resource r;
  v ← load_url (u res);
  store_url (u res)
    (net_url.set_RawQuery (net_url.Encode {[ "~action" := [action] ]}) v);;
  mret r.

(** [WithParameter] sets the [URL.RawQuery] to the parameter. *)
Definition WithParameter (r : ptr) (name value : string) : M ptr :=
  let parameter := net_url.Set_ name value ∅ in
  res ← load_resource r;
  v ← load_url (u res);
  store_url (u res) (net_url.set_RawQuery (net_url.Encode parameter) v);;
  mret r.

(** [errorReader] holds the error its reads answer with. *)
Record errorReader : Type := mkErrorReader { e : error }.

#[global] Instance errorReader_Read : io.Reader_methods errorReader :=
  fun r _ => (io.mkRead (-1) "" (Some (e r)), r).

(** [encode] body as JSON, deferring any errors until the [io.Reader] is
    used. *)
Definition encode (body : encoding_json.value) : io.Reader :=
  let b := io.mkBuffer "" in
  let '(b, err) := encoding_json.Encoder_Encode b body in
  match err with
  | Some err => io.mkReader (mkErrorReader err)
  | None => io.mkReader b
  end.

Section Request.

(** The HTTP layer: the type [http.Request], [url.URL.String] and
    [http.NewRequest], which builds a request from a method, a URL in text
    and a body reader, or fails. *)
Variable http_Request : Type.
Variable url_String : net_url.URL -> string.
Variable http_NewRequest : string -> string -> io.Reader -> result http_Request.

(** [String] of a resource is the text of its URL. *)
Definition Resource_String (r : ptr) : M string :=
  res ← load_resource r;
  v ← load_url (u res);
  mret (url_String v).

(** [Request] returns a new [http.Request] for the given method. An
    optional body can be provided for POST and PATCH methods. *)
Definition Request (r : ptr) (method : string) (body : list encoding_json.value)
  : M http_Request :=
  let rdr := io.MultiReader_none in (* empty body by default *)
  let rdr := match body with
             | [] => rdr
             | b :: _ => encode b
             end in
  res ← load_resource r;
  v ← load_url (u res);
  match http_NewRequest method (url_String v) rdr with
  | Err err => throw (PanicError err)
  | Ok req => mret req
  end.

End Request.

End internal.

(** * Vocabulary of the statements *)

(** ** The builder *)

(** A method that updates the URL of its receiver and returns the
    receiver: the shape shared by [WithID], [WithAction] and
    [WithParameter]. *)
Definition update_url (f : net_url.URL -> net_url.URL) (r : ptr) : M ptr :=
  res ← load_resource r;
  v ← load_url (u res);
  store_url (u res) (f v);;
  mret r.

(** Every byte of [s] passes the test [p]. *)
Fixpoint all_chars (p : ascii -> bool) (s : string) : bool :=
  match s with
  | EmptyString => true
  | String c s' => p c && all_chars p s'
  end.

(** The unreserved characters of RFC 3986: letters, digits and [-_.~]. *)
Definition unreserved (c : ascii) : bool := is_alnum c || mem_char c "-_.~".

(** The bytes a query-escaped string is made of. *)
Definition query_safe (c : ascii) : bool := unreserved c || mem_char c "+%".

(** The query encoding of one byte, case by case. *)
Definition query_byte (c : ascii) : string :=
  if Ascii.eqb c " " then "+"
  else if unreserved c then String c ""
  else String "%" (String (hex_digit net_url.upperhex (hi_nibble c))
                     (String (hex_digit net_url.upperhex (lo_nibble c)) "")).

(** ** The readers and the JSON text *)

(** The reader after the reads of the given buffer sizes, in order. *)
Definition after_reads (r : io.Reader) (sizes : list nat) : io.Reader :=
  foldl (fun r n => snd (io.Reader_Read r n)) r sizes.

(** A line feed, which the encoder ends every value with. *)
Definition newline : string := String "010" "".

(** Text with double quotes written as apostrophes, for JSON examples. *)
Fixpoint dq (s : string) : string :=
  match s with
  | EmptyString => EmptyString
  | String c s' => String (if Ascii.eqb c "'" then dquote else c) (dq s')
  end.

(** The loops of [Marshal] and [to_json] over the elements of a slice and
    the fields of a struct, by name. *)
Definition Marshal_elems : list encoding_json.value -> result (list string) :=
  fix elems (vs : list encoding_json.value) : result (list string) :=
    match vs with
    | [] => Ok []
    | v :: vs' =>
        match encoding_json.Marshal v with
        | Err e => Err e
        | Ok b =>
            match elems vs' with
            | Err e => Err e
            | Ok bs => Ok (b :: bs)
            end
        end
    end.

Definition Marshal_members
  : list (encoding_json.field * encoding_json.value) -> result (list string) :=
  fix members (fs : list (encoding_json.field * encoding_json.value))
    : result (list string) :=
    match fs with
    | [] => Ok []
    | (f, v) :: fs' =>
        if encoding_json.omitempty f && encoding_json.isEmptyValue v then members fs'
        else
          match encoding_json.Marshal v with
          | Err e => Err e
          | Ok b =>
              match members fs' with
              | Err e => Err e
              | Ok bs =>
                  Ok ((encoding_json.quote (encoding_json.key f) +:+ ":" +:+ b) :: bs)
              end
          end
    end.

Definition to_json_elems : list encoding_json.value -> result (list encoding_json.json) :=
  fix elems (vs : list encoding_json.value) : result (list encoding_json.json) :=
    match vs with
    | [] => Ok []
    | v :: vs' =>
        match encoding_json.to_json v with
        | Err e => Err e
        | Ok j =>
            match elems vs' with
            | Err e => Err e
            | Ok js => Ok (j :: js)
            end
        end
    end.

Definition to_json_members
  : list (encoding_json.field * encoding_json.value)
    -> result (list (string * encoding_json.json)) :=
  fix members (fs : list (encoding_json.field * encoding_json.value))
    : result (list (string * encoding_json.json)) :=
    match fs with
    | [] => Ok []
    | (f, v) :: fs' =>
        if encoding_json.omitempty f && encoding_json.isEmptyValue v then members fs'
        else
          match encoding_json.to_json v with
          | Err e => Err e
          | Ok j =>
              match members fs' with
              | Err e => Err e
              | Ok js => Ok ((encoding_json.text (encoding_json.key f), j) :: js)
              end
          end
    end.

Section value_induction.

Import encoding_json.

Variable P : value -> Prop.
Hypothesis HNil : P VNil.
Hypothesis HBool : forall b, P (VBool b).
Hypothesis HInt : forall n, P (VInt n).
Hypothesis HString : forall s, P (VString s).
Hypothesis HPtr : forall v, P v -> P (VPtr v).
Hypothesis HSlice : forall vs, Forall P vs -> P (VSlice vs).
Hypothesis HStruct : forall fs, Forall (fun fv => P (snd fv)) fs -> P (VStruct fs).
Hypothesis HChan : P VChan.
Hypothesis HFunc : P VFunc.

(** Induction over values, through the lists of slices and structs. *)
Fixpoint value_induction (v : value) : P v :=
  match v with
  | VNil => HNil
  | VBool b => HBool b
  | VInt n => HInt n
  | VString s => HString s
  | VPtr v' => HPtr v' (value_induction v')
  | VSlice vs =>
      HSlice vs
        ((fix all (vs : list value) : Forall P vs :=
            match vs with
            | [] => List.Forall_nil P
            | v :: vs' => List.Forall_cons P v vs' (value_induction v) (all vs')
            end) vs)
  | VStruct fs =>
      HStruct fs
        ((fix all (fs : list (field * value)) : Forall (fun fv => P (snd fv)) fs :=
            match fs with
            | [] => List.Forall_nil _
            | fv :: fs' =>
                List.Forall_cons (fun fv => P (snd fv)) fv fs'
                  (value_induction (snd fv)) (all fs')
            end) fs)
  | VChan => HChan
  | VFunc => HFunc
  end.

End value_induction.

(** The bytes a JSON value written by the encoder can start with. *)
Definition value_start (c : ascii) : bool :=
  is_digit c || mem_char c "-ntf[{" || Ascii.eqb c dquote.

(** The bytes that may follow a number in a document the encoder writes. *)
Definition closes_value (rest : string) : Prop :=
  match rest with
  | EmptyString => True
  | String c _ => c = ","%char \/ c = "]"%char \/ c = "}"%char \/ c = "010"%char
  end.

(** What may follow the digits of a number. *)
Definition ends_digits (rest : string) : Prop :=
  match rest with
  | EmptyString => True
  | String c _ => encoding_json.digit_of c = None
  end.

(** The round trip of one value: it has a JSON representation, and the
    decoder finds that document at the front of any input that starts with
    the text of the value and goes on as the encoder's output does. *)
Definition decodes_back (v : encoding_json.value) : Prop :=
  forall t, encoding_json.Marshal v = Ok t ->
    exists j, encoding_json.to_json v = Ok j
      /\ forall fuel rest,
           closes_value rest ->
           String.length t < fuel ->
           encoding_json.parse_value fuel (t +:+ rest) = Some (j, rest).


(** * Collaborators and data for the examples *)

Module soap.

(** Modelled from the spec: a connection that supplies the base URL (the
    SOAP client of package vim25/soap stands behind [CloneURL] in the typed
    clients): it holds a URL and its [URL()] hands out a pointer to a copy
    of it, made for the caller. *)
Record Client : Type := mkClient { base : net_url.URL }.

#[global] Instance Client_URL : internal.CloneURL Client :=
  fun c => new_url (base c).

End soap.

(** A base URL with a query string, and a client that supplies it. *)
Definition sdk_url : net_url.URL :=
  net_url.mkURL "https" "" None "host" "/sdk" "" false "a=b" "".

Definition sdk_client : soap.Client := soap.mkClient sdk_url.

(** A heap with one resource, at location 1, for the URL at location 1. *)
Definition one_resource (v : net_url.URL) : heap :=
  mkHeap {[ 1%positive := v ]} {[ 1%positive := mkResource 1%positive ]}.

(** The association of the spec's example. *)
Definition datacenter_association : internal.Association :=
  internal.mkAssociation (Some (internal.mkAssociatedObject "Datacenter" "dc-1")).

(** ** A stand-in for the HTTP layer, for examples *)
Module net_http.

(** A request that records what [http.NewRequest] was given. *)
Record Request : Type := mkRequest
  { Method : string; URL : string; Body : io.Reader }.

(** The characters of an HTTP token. *)
Definition is_token_char (c : ascii) : bool :=
  is_alnum c || mem_char c "!#$%&'*+-.^_`|~".

Definition validMethod (method : string) : bool :=
  (0 <? String.length method)%nat && all_chars is_token_char method.

(** The construction: an empty method stands for [GET], and a method that
    is not a token is refused. The URL is taken as it is. *)
Definition NewRequest (method url : string) (body : io.Reader) : result Request :=
  let method := match method with EmptyString => "GET" | _ => method end in
  if validMethod method then Ok (mkRequest method url body)
  else Err (OtherError "net/http: invalid method").

(** The text of a URL made of a scheme, a host, a path that needs no
    escaping and possibly a query. *)
Definition String_ (v : net_url.URL) : string :=
  net_url.Scheme v +:+ "://" +:+ net_url.Host v +:+ net_url.Path v
    +:+ match net_url.RawQuery v with
        | EmptyString => ""
        | q => "?" +:+ q
        end.

End net_http.

(** * Vocabulary of the further properties *)

(** ** Chains of builder calls *)

(** One call of a method of the builder. *)
Inductive call : Type :=
| CallWithID (id : string)
| CallWithAction (action : string)
| CallWithParameter (name value : string).

Definition run_call (c : call) (r : ptr) : M ptr :=
  match c with
  | CallWithID id => internal.WithID r id
  | CallWithAction action => internal.WithAction r action
  | CallWithParameter name value => internal.WithParameter r name value
  end.

(** A chain of calls, each on the resource the call before returned. *)
Fixpoint run_calls (cs : list call) (r : ptr) : M ptr :=
  match cs with
  | [] => mret r
  | c :: cs' => r' ← run_call c r; run_calls cs' r'
  end.

(** The URL a call makes of a URL. *)
Definition call_url (c : call) (v : net_url.URL) : net_url.URL :=
  match c with
  | CallWithID id => net_url.set_Path (net_url.Path v +:+ "/id:" +:+ id) v
  | CallWithAction action =>
      net_url.set_RawQuery ("~action=" +:+ net_url.QueryEscape action) v
  | CallWithParameter name value =>
      net_url.set_RawQuery
        (net_url.QueryEscape name +:+ "=" +:+ net_url.QueryEscape value) v
  end.

(** The path segments the calls of a chain append, in order. *)
Fixpoint id_segments (cs : list call) : string :=
  match cs with
  | [] => ""
  | CallWithID id :: cs' => "/id:" +:+ id +:+ id_segments cs'
  | _ :: cs' => id_segments cs'
  end.

(** The query a chain leaves, from the query [q] it starts with: the one
    of its last call that sets a query. *)
Fixpoint last_query (cs : list call) (q : string) : string :=
  match cs with
  | [] => q
  | CallWithID _ :: cs' => last_query cs' q
  | CallWithAction action :: cs' =>
      last_query cs' ("~action=" +:+ net_url.QueryEscape action)
  | CallWithParameter name value :: cs' =>
      last_query cs' (net_url.QueryEscape name +:+ "=" +:+ net_url.QueryEscape value)
  end.

(** ** Query strings *)

(** The number of bytes of [s] equal to [c]. *)
Fixpoint count_char (c : ascii) (s : string) : nat :=
  match s with
  | EmptyString => 0
  | String d s' => (if Ascii.eqb c d then 1 else 0) + count_char c s'
  end.

(** [url.QueryUnescape]: a query-escaped string read back; [%] must be
    followed by two hexadecimal digits. *)
Fixpoint QueryUnescape (s : string) : option string :=
  match s with
  | EmptyString => Some EmptyString
  | String c s' =>
      if Ascii.eqb c "%" then
        match s' with
        | String h (String l t) =>
            match encoding_json.hex_value h, encoding_json.hex_value l with
            | Some a, Some b =>
                option_map (String (ascii_of_N (a * 16 + b))) (QueryUnescape t)
            | _, _ => None
            end
        | _ => None
        end
      else if Ascii.eqb c "+" then option_map (String " ") (QueryUnescape s')
      else option_map (String c) (QueryUnescape s')
  end.

(** ** Readers and bodies *)

(** What the reads of the given buffer sizes answer, in order. *)
Fixpoint read_trace (r : io.Reader) (sizes : list nat) : list io.read_result :=
  match sizes with
  | [] => []
  | n :: sizes' =>
      let '(res, r') := io.Reader_Read r n in res :: read_trace r' sizes'
  end.

(** The bytes a trace of reads delivered. *)
Fixpoint trace_data (results : list io.read_result) : string :=
  match results with
  | [] => ""
  | res :: results' => io.data res +:+ trace_data results'
  end.

(** A read that keeps the contract of [io.Reader] for a buffer of [n]
    bytes: the count is the number of bytes delivered, at most [n], and the
    error is [nil] or [EOF]. *)
Definition read_ok (n : nat) (res : io.read_result) : Prop :=
  io.count res = Z.of_nat (String.length (io.data res))
  /\ String.length (io.data res) <= n
  /\ (io.err res = None \/ io.err res = Some EOF).


Definition is_ascii (c : ascii) : bool := (code c <? 128)%N.

(** ** Data for the examples *)

(** A heap in which the resources 1 and 2 share the URL at location 1 and
    the resource 3 has the URL at location 2 to itself. *)
Definition shared_heap : heap :=
  mkHeap (<[2%positive := sdk_url]> {[ 1%positive := sdk_url ]})
         (<[3%positive := mkResource 2%positive]>
            (<[2%positive := mkResource 1%positive]>
               {[ 1%positive := mkResource 1%positive ]})).

(** The reader [Request] makes of its optional bodies. *)
Definition body_reader (body : list encoding_json.value) : io.Reader :=
  match body with
  | [] => io.MultiReader_none
  | b :: _ => internal.encode b
  end.

(** The URL a chain of calls leaves of the URL of a new resource for
    [path], made from the base URL [b]. *)
Definition built_url (b : net_url.URL) (path : string) (cs : list call) : net_url.URL :=
  net_url.mkURL (net_url.Scheme b) (net_url.Opaque b) (net_url.User b) (net_url.Host b)
    ((internal.Path +:+ path) +:+ id_segments cs) (net_url.RawPath b)
    (net_url.ForceQuery b) (last_query cs (net_url.RawQuery b)) (net_url.Fragment b).

(** [strings.Cut(s, "=")]: what stands before and after the first [=]
    of [s]; all of [s] and nothing if there is none. *)
Fixpoint cut_equals (s : string) : string * string :=
  match s with
  | EmptyString => (EmptyString, EmptyString)
  | String c s' =>
      if Ascii.eqb c "=" then (EmptyString, s')
      else let '(a, b) := cut_equals s' in (String c a, b)
  end.

(** [url.ParseQuery] on a query of one pair: the key and the value, cut at
    the first [=] and unescaped. *)
Definition parse_pair (q : string) : option (string * string) :=
  let '(k, v) := cut_equals q in
  match QueryUnescape k, QueryUnescape v with
  | Some k', Some v' => Some (k', v')
  | _, _ => None
  end.
(** * Properties of the resource builder *)

Section Builder.

Import internal.

(** Running the heap operations. *)
Lemma run_bind {A B} (m : M A) (k : A -> M B) h a h' :
  m h = Done a h' -> (m ≫= k) h = k a h'.
Proof. intros E. unfold mbind, M_bind, bind. now rewrite E. Qed.

Lemma load_resource_run h r res :
  resources h !! r = Some res -> load_resource r h = Done res h.
Proof. intros E. unfold load_resource. now rewrite E. Qed.

Lemma load_url_run h p v :
  urls h !! p = Some v -> load_url p h = Done v h.
Proof. intros E. unfold load_url. now rewrite E. Qed.

Lemma store_url_run h p v w :
  urls h !! p = Some v ->
  store_url p w h = Done tt (mkHeap (<[p := w]> (urls h)) (resources h)).
Proof. intros E. unfold store_url. now rewrite E. Qed.

Lemma update_url_run f h r res v :
  resources h !! r = Some res ->
  urls h !! u res = Some v ->
  update_url f r h
  = Done r (mkHeap (<[u res := f v]> (urls h)) (resources h)).
Proof.
  intros Hr Hu. unfold update_url.
  rewrite (run_bind _ _ _ _ _ (load_resource_run _ _ _ Hr)).
  rewrite (run_bind _ _ _ _ _ (load_url_run _ _ _ Hu)).
  rewrite (run_bind _ _ _ _ _ (store_url_run _ _ _ (f v) Hu)).
  reflexivity.
Qed.

Lemma resource_url_Some h r v :
  resource_url h r = Some v ->
  exists res, resources h !! r = Some res /\ urls h !! u res = Some v.
Proof.
  unfold resource_url. destruct (resources h !! r) as [res|]; simpl; [|discriminate].
  intros E. now exists res.
Qed.

Lemma update_url_resource f h r v :
  resource_url h r = Some v ->
  exists h', update_url f r h = Done r h' /\ resource_url h' r = Some (f v)
             /\ resources h' = resources h.
Proof.
  intros H. destruct (resource_url_Some _ _ _ H) as (res & Hr & Hu).
  eexists. split; [apply (update_url_run f h r res v Hr Hu)|].
  split; [|reflexivity].
  unfold resource_url. simpl. rewrite Hr. simpl. apply lookup_insert_eq.
Qed.

End Builder.

Section BuilderClaims.

Import internal.

Lemma WithID_update r id :
  WithID r id = update_url (fun v => net_url.set_Path (net_url.Path v +:+ ("/id:" +:+ id)) v) r.
Proof. reflexivity. Qed.

Lemma WithAction_update r action :
  WithAction r action
  = update_url (net_url.set_RawQuery (net_url.Encode {[ "~action" := [action] ]})) r.
Proof. reflexivity. Qed.

Lemma WithParameter_update r name value :
  WithParameter r name value
  = update_url (net_url.set_RawQuery (net_url.Encode (net_url.Set_ name value ∅))) r.
Proof. reflexivity. Qed.

(** [Values.Encode] on a map with one key and one value. *)
Lemma Encode_singleton k v :
  net_url.Encode {[ k := [v] ]} = net_url.QueryEscape k +:+ "=" +:+ net_url.QueryEscape v.
Proof.
  unfold net_url.Encode. rewrite map_to_list_singleton. simpl.
  rewrite lookup_singleton_eq. reflexivity.
Qed.

Lemma Encode_Set_empty k v :
  net_url.Encode (net_url.Set_ k v ∅) = net_url.QueryEscape k +:+ "=" +:+ net_url.QueryEscape v.
Proof. unfold net_url.Set_. rewrite insert_empty. apply Encode_singleton. Qed.

Lemma all_chars_app p s t :
  all_chars p (s +:+ t) = all_chars p s && all_chars p t.
Proof. induction s as [|c s IH]; simpl; [reflexivity|]. now rewrite IH, andb_assoc. Qed.

Lemma escape_byte_query c :
  net_url.escape_byte net_url.encodeQueryComponent c = query_byte c.
Proof. destruct c as [[] [] [] [] [] [] [] []]; reflexivity. Qed.

Lemma query_byte_safe c : all_chars query_safe (query_byte c) = true.
Proof. destruct c as [[] [] [] [] [] [] [] []]; reflexivity. Qed.

Lemma QueryEscape_cons c s :
  net_url.QueryEscape (String c s) = query_byte c +:+ net_url.QueryEscape s.
Proof.
  unfold net_url.QueryEscape.
  change (net_url.escape (String c s) net_url.encodeQueryComponent)
    with (net_url.escape_byte net_url.encodeQueryComponent c
            +:+ net_url.escape s net_url.encodeQueryComponent).
  now rewrite escape_byte_query.
Qed.

Lemma QueryEscape_safe s : all_chars query_safe (net_url.QueryEscape s) = true.
Proof.
  induction s as [|c s IH]; [reflexivity|].
  rewrite QueryEscape_cons, all_chars_app, query_byte_safe, IH. reflexivity.
Qed.

(** What [URL] does from a heap in which the connection hands out a live
    pointer. *)
Lemma URL_run {C} `{CloneURL C} (c : C) path h p h1 b :
  CloneURL_URL c h = Done p h1 ->
  urls h1 !! p = Some b ->
  let r := fresh (dom (resources h1)) in
  URL c path h
  = Done r (mkHeap (<[p := net_url.set_Path (Path +:+ path) b]> (urls h1))
                   (<[r := mkResource p]> (resources h1))).
Proof.
  intros Hc Hb r. unfold URL.
  rewrite (run_bind _ _ _ _ _ Hc).
  unfold new_resource at 1.
  erewrite run_bind; [|reflexivity]. fold r.
  erewrite run_bind; [|apply load_resource_run; simpl; apply lookup_insert_eq].
  simpl u.
  erewrite run_bind; [|apply load_url_run; simpl; exact Hb].
  erewrite run_bind; [|apply store_url_run with (v := b); simpl; exact Hb].
  reflexivity.
Qed.

Lemma URL_run_resource {C} `{CloneURL C} (c : C) path h p h1 b :
  CloneURL_URL c h = Done p h1 ->
  urls h1 !! p = Some b ->
  exists r h2, URL c path h = Done r h2
    /\ resources h2 !! r = Some (mkResource p)
    /\ resource_url h2 r = Some (net_url.set_Path (Path +:+ path) b).
Proof.
  intros Hc Hb. do 2 eexists. split; [apply (URL_run c path h p h1 b Hc Hb)|].
  unfold resource_url. simpl. rewrite lookup_insert_eq. simpl.
  split; [reflexivity|apply lookup_insert_eq].
Qed.

(** C1 (as amended): for every base URL [b] the connection supplies and
    every path, the resource [URL] returns leads to [b] with its path
    replaced by the API root [/rest] followed by the path; the query string
    is the one of [b], so there is none when [b] has none. *)
Theorem URL_path_and_query {C} `{CloneURL C} (c : C) (path : string) h p h1 b :
  CloneURL_URL c h = Done p h1 ->
  urls h1 !! p = Some b ->
  exists r h2 v,
    URL c path h = Done r h2
    /\ resources h2 !! r = Some (mkResource p)
    /\ resource_url h2 r = Some v
    /\ v = net_url.set_Path ("/rest" +:+ path) b
    /\ net_url.Path v = "/rest" +:+ path
    /\ net_url.RawQuery v = net_url.RawQuery b
    /\ (net_url.RawQuery b = "" -> net_url.RawQuery v = "").
Proof.
  intros Hc Hb.
  destruct (URL_run_resource c path h p h1 b Hc Hb) as (r & h2 & Hrun & Hr & Hv).
  exists r, h2, (net_url.set_Path (Path +:+ path) b).
  repeat split; try assumption. intros E; exact E.
Qed.

Lemma URL_path_and_query_witness :
  exists r h2 v,
    URL sdk_client SessionPath empty_heap = Done r h2
    /\ resources h2 !! r = Some (mkResource 1%positive)
    /\ resource_url h2 r = Some v
    /\ v = net_url.set_Path ("/rest" +:+ SessionPath) sdk_url
    /\ net_url.Path v = "/rest" +:+ SessionPath
    /\ net_url.RawQuery v = net_url.RawQuery sdk_url
    /\ (net_url.RawQuery sdk_url = "" -> net_url.RawQuery v = "").
Proof.
  apply (URL_path_and_query sdk_client SessionPath empty_heap 1%positive
           (mkHeap {[ 1%positive := sdk_url ]} ∅) sdk_url).
  - vm_compute. reflexivity.
  - vm_compute. reflexivity.
Defined.

(** C1 as stated fails: a connection whose base URL carries the query
    [a=b] gets a resource whose URL still carries it. *)
Lemma URL_keeps_base_query :
  ~ (forall (c : soap.Client) (path : string) h p h1 b,
        CloneURL_URL c h = Done p h1 ->
        urls h1 !! p = Some b ->
        exists r h2 v,
          URL c path h = Done r h2
          /\ resource_url h2 r = Some v
          /\ net_url.Path v = "/rest" +:+ path
          /\ net_url.RawQuery v = "").
Proof.
  intros claim.
  set (p := fresh (dom (urls empty_heap))).
  set (h1 := mkHeap (<[p := sdk_url]> (urls empty_heap)) (resources empty_heap)).
  assert (Hc : CloneURL_URL sdk_client empty_heap = Done p h1) by reflexivity.
  assert (Hb : urls h1 !! p = Some sdk_url) by (simpl; apply lookup_insert_eq).
  destruct (claim sdk_client SessionPath empty_heap p h1 sdk_url Hc Hb)
    as (r & h2 & v & Hrun & Hv & _ & Hq).
  destruct (URL_run_resource sdk_client SessionPath empty_heap p h1 sdk_url Hc Hb)
    as (r' & h2' & Hrun' & _ & Hv').
  rewrite Hrun in Hrun'. injection Hrun' as -> ->.
  rewrite Hv in Hv'. injection Hv' as ->. discriminate Hq.
Qed.

(** C4: [WithID] appends exactly [/id:] followed by the id to the current
    path, touches nothing else, and returns the resource it was called on;
    a second call appends a second segment after the first. *)
Theorem WithID_appends (h : heap) (r : ptr) (v : net_url.URL) (id1 id2 : string) :
  resource_url h r = Some v ->
  exists h1 h2,
    WithID r id1 h = Done r h1
    /\ resource_url h1 r
       = Some (net_url.set_Path (net_url.Path v +:+ "/id:" +:+ id1) v)
    /\ WithID r id2 h1 = Done r h2
    /\ resource_url h2 r
       = Some (net_url.set_Path
                 ((net_url.Path v +:+ "/id:" +:+ id1) +:+ "/id:" +:+ id2) v).
Proof.
  intros Hv. rewrite WithID_update.
  destruct (update_url_resource
              (fun v => net_url.set_Path (net_url.Path v +:+ ("/id:" +:+ id1)) v)
              h r v Hv) as (h1 & Hrun1 & Hv1 & _).
  exists h1. rewrite WithID_update.
  destruct (update_url_resource
              (fun v => net_url.set_Path (net_url.Path v +:+ ("/id:" +:+ id2)) v)
              h1 r _ Hv1) as (h2 & Hrun2 & Hv2 & _).
  exists h2. repeat split; assumption.
Qed.

Lemma WithID_appends_witness :
  exists h1 h2,
    WithID 1%positive "lib-1" (one_resource sdk_url) = Done 1%positive h1
    /\ resource_url h1 1%positive
       = Some (net_url.set_Path (net_url.Path sdk_url +:+ "/id:" +:+ "lib-1") sdk_url)
    /\ WithID 1%positive "item-2" h1 = Done 1%positive h2
    /\ resource_url h2 1%positive
       = Some (net_url.set_Path
                 ((net_url.Path sdk_url +:+ "/id:" +:+ "lib-1") +:+ "/id:" +:+ "item-2")
                 sdk_url).
Proof.
  apply (WithID_appends (one_resource sdk_url) 1%positive sdk_url "lib-1" "item-2").
  vm_compute. reflexivity.
Defined.

(** The example of the spec: [URL], then [WithID], then [WithAction]. *)
Example library_sync :
  match (r ← URL sdk_client LibraryPath; r ← WithID r "lib-1"; WithAction r "sync")
          empty_heap with
  | Done r h =>
      (net_url.Path <$> resource_url h r, net_url.RawQuery <$> resource_url h r)
  | Panicked _ => (None, None)
  end
  = (Some "/rest/com/vmware/content/library/id:lib-1", Some "~action=sync").
Proof. vm_compute. reflexivity. Qed.

Lemma update_RawQuery_run q h r v :
  resource_url h r = Some v ->
  exists h', update_url (net_url.set_RawQuery q) r h = Done r h'
    /\ resource_url h' r = Some (net_url.set_RawQuery q v).
Proof.
  intros Hv. destruct (update_url_resource (net_url.set_RawQuery q) h r v Hv)
    as (h' & Hrun & Hv' & _). now exists h'.
Qed.

Lemma set_RawQuery_twice q q' v :
  net_url.set_RawQuery q' (net_url.set_RawQuery q v) = net_url.set_RawQuery q' v.
Proof. reflexivity. Qed.

(** C3: [WithAction] and [WithParameter] each replace the whole query
    string: whatever the query was, after one call it is the encoding of
    the one pair of that call, and the rest of the URL is as before. So
    [WithAction] followed by [WithParameter] leaves the parameter only,
    the other order the action only, and [WithAction "a"] followed by
    [WithParameter "x" "y"] exactly [x=y]. Each call returns the resource
    it was called on. *)
Theorem query_last_writer_wins (h : heap) (r : ptr) (v : net_url.URL)
    (action name value : string) :
  resource_url h r = Some v ->
  (exists h1 w,
      WithAction r action h = Done r h1
      /\ resource_url h1 r = Some w
      /\ net_url.RawQuery w = "~action=" +:+ net_url.QueryEscape action
      /\ net_url.set_RawQuery (net_url.RawQuery v) w = v)
  /\ (exists h1 w,
      WithParameter r name value h = Done r h1
      /\ resource_url h1 r = Some w
      /\ net_url.RawQuery w
         = net_url.QueryEscape name +:+ "=" +:+ net_url.QueryEscape value
      /\ net_url.set_RawQuery (net_url.RawQuery v) w = v)
  /\ (exists h1 h2 w,
      WithAction r action h = Done r h1
      /\ WithParameter r name value h1 = Done r h2
      /\ resource_url h2 r = Some w
      /\ net_url.RawQuery w
         = net_url.QueryEscape name +:+ "=" +:+ net_url.QueryEscape value
      /\ net_url.set_RawQuery (net_url.RawQuery v) w = v)
  /\ (exists h1 h2 w,
      WithParameter r name value h = Done r h1
      /\ WithAction r action h1 = Done r h2
      /\ resource_url h2 r = Some w
      /\ net_url.RawQuery w = "~action=" +:+ net_url.QueryEscape action
      /\ net_url.set_RawQuery (net_url.RawQuery v) w = v)
  /\ (exists h1 h2 w,
      WithAction r "a" h = Done r h1
      /\ WithParameter r "x" "y" h1 = Done r h2
      /\ resource_url h2 r = Some w
      /\ net_url.RawQuery w = "x=y").
Proof.
  intros Hv.
  assert (Hone : forall q, exists h1,
             update_url (net_url.set_RawQuery q) r h = Done r h1
             /\ resource_url h1 r = Some (net_url.set_RawQuery q v)).
  { intros q. apply update_RawQuery_run, Hv. }
  assert (Hchain : forall q q', exists h1 h2,
             update_url (net_url.set_RawQuery q) r h = Done r h1
             /\ update_url (net_url.set_RawQuery q') r h1 = Done r h2
             /\ resource_url h2 r = Some (net_url.set_RawQuery q' v)).
  { intros q q'.
    destruct (Hone q) as (h1 & Hrun1 & Hv1).
    destruct (update_RawQuery_run q' h1 r _ Hv1) as (h2 & Hrun2 & Hv2).
    exists h1, h2. now rewrite set_RawQuery_twice in Hv2. }
  assert (Hback : forall q, net_url.set_RawQuery (net_url.RawQuery v)
                              (net_url.set_RawQuery q v) = v)
    by (intros q; destruct v; reflexivity).
  rewrite !WithAction_update, !WithParameter_update.
  rewrite !Encode_Set_empty, !Encode_singleton.
  split; [|split; [|split; [|split]]].
  - destruct (Hone ("~action=" +:+ net_url.QueryEscape action)) as (h1 & H1 & H2).
    exists h1, (net_url.set_RawQuery ("~action=" +:+ net_url.QueryEscape action) v).
    repeat split; try assumption. apply Hback.
  - destruct (Hone (net_url.QueryEscape name +:+ "=" +:+ net_url.QueryEscape value))
      as (h1 & H1 & H2).
    exists h1, (net_url.set_RawQuery
                  (net_url.QueryEscape name +:+ "=" +:+ net_url.QueryEscape value) v).
    repeat split; try assumption. apply Hback.
  - destruct (Hchain ("~action=" +:+ net_url.QueryEscape action)
                     (net_url.QueryEscape name +:+ "=" +:+ net_url.QueryEscape value))
      as (h1 & h2 & H1 & H2 & H3).
    exists h1, h2, (net_url.set_RawQuery
                      (net_url.QueryEscape name +:+ "=" +:+ net_url.QueryEscape value) v).
    repeat split; try assumption. apply Hback.
  - destruct (Hchain (net_url.QueryEscape name +:+ "=" +:+ net_url.QueryEscape value)
                     ("~action=" +:+ net_url.QueryEscape action))
      as (h1 & h2 & H1 & H2 & H3).
    exists h1, h2, (net_url.set_RawQuery ("~action=" +:+ net_url.QueryEscape action) v).
    repeat split; try assumption. apply Hback.
  - destruct (Hchain ("~action=" +:+ net_url.QueryEscape "a")
                     (net_url.QueryEscape "x" +:+ "=" +:+ net_url.QueryEscape "y"))
      as (h1 & h2 & H1 & H2 & H3).
    exists h1, h2, (net_url.set_RawQuery
                      (net_url.QueryEscape "x" +:+ "=" +:+ net_url.QueryEscape "y") v).
    repeat split; assumption.
Qed.

Lemma query_last_writer_wins_witness :
  (exists h1 w,
      WithAction 1%positive "sync" (one_resource sdk_url) = Done 1%positive h1
      /\ resource_url h1 1%positive = Some w
      /\ net_url.RawQuery w = "~action=" +:+ net_url.QueryEscape "sync"
      /\ net_url.set_RawQuery (net_url.RawQuery sdk_url) w = sdk_url)
  /\ (exists h1 w,
      WithParameter 1%positive "library_id" "lib 1" (one_resource sdk_url)
      = Done 1%positive h1
      /\ resource_url h1 1%positive = Some w
      /\ net_url.RawQuery w
         = net_url.QueryEscape "library_id" +:+ "=" +:+ net_url.QueryEscape "lib 1"
      /\ net_url.set_RawQuery (net_url.RawQuery sdk_url) w = sdk_url)
  /\ (exists h1 h2 w,
      WithAction 1%positive "sync" (one_resource sdk_url) = Done 1%positive h1
      /\ WithParameter 1%positive "library_id" "lib 1" h1 = Done 1%positive h2
      /\ resource_url h2 1%positive = Some w
      /\ net_url.RawQuery w
         = net_url.QueryEscape "library_id" +:+ "=" +:+ net_url.QueryEscape "lib 1"
      /\ net_url.set_RawQuery (net_url.RawQuery sdk_url) w = sdk_url)
  /\ (exists h1 h2 w,
      WithParameter 1%positive "library_id" "lib 1" (one_resource sdk_url)
      = Done 1%positive h1
      /\ WithAction 1%positive "sync" h1 = Done 1%positive h2
      /\ resource_url h2 1%positive = Some w
      /\ net_url.RawQuery w = "~action=" +:+ net_url.QueryEscape "sync"
      /\ net_url.set_RawQuery (net_url.RawQuery sdk_url) w = sdk_url)
  /\ (exists h1 h2 w,
      WithAction 1%positive "a" (one_resource sdk_url) = Done 1%positive h1
      /\ WithParameter 1%positive "x" "y" h1 = Done 1%positive h2
      /\ resource_url h2 1%positive = Some w
      /\ net_url.RawQuery w = "x=y").
Proof.
  apply (query_last_writer_wins (one_resource sdk_url) 1%positive sdk_url
           "sync" "library_id" "lib 1").
  vm_compute. reflexivity.
Defined.

(** C10: [WithParameter] sets the query to the query-escaped name, [=],
    and the query-escaped value, and [WithAction] to [~action=] and the
    query-escaped action. Query escaping keeps letters, digits and [-_.~],
    writes a space as [+] and every other byte as [%] and two upper-case
    hexadecimal digits, so that only those bytes occur in its result.
    [WithID] puts the id into the path as it is. *)
Theorem query_escaped_id_verbatim (h : heap) (r : ptr) (v : net_url.URL)
    (name value action id : string) :
  resource_url h r = Some v ->
  (exists h',
      WithParameter r name value h = Done r h'
      /\ resource_url h' r
         = Some (net_url.set_RawQuery
                   (net_url.QueryEscape name +:+ "=" +:+ net_url.QueryEscape value) v))
  /\ (exists h',
      WithAction r action h = Done r h'
      /\ resource_url h' r
         = Some (net_url.set_RawQuery ("~action=" +:+ net_url.QueryEscape action) v))
  /\ (exists h',
      WithID r id h = Done r h'
      /\ resource_url h' r
         = Some (net_url.set_Path (net_url.Path v +:+ "/id:" +:+ id) v))
  /\ (forall c s, net_url.QueryEscape (String c s)
                  = query_byte c +:+ net_url.QueryEscape s)
  /\ net_url.QueryEscape "" = ""
  /\ (forall s, all_chars query_safe (net_url.QueryEscape s) = true).
Proof.
  intros Hv. repeat split.
  - rewrite WithParameter_update, Encode_Set_empty.
    apply update_RawQuery_run, Hv.
  - rewrite WithAction_update, Encode_singleton.
    apply update_RawQuery_run, Hv.
  - rewrite WithID_update.
    destruct (update_url_resource
                (fun v => net_url.set_Path (net_url.Path v +:+ ("/id:" +:+ id)) v)
                h r v Hv) as (h' & Hrun & Hv' & _).
    now exists h'.
  - apply QueryEscape_cons.
  - apply QueryEscape_safe.
Qed.

Lemma query_escaped_id_verbatim_witness :
  (exists h',
      WithParameter 1%positive "a b" "c&d=e/f" (one_resource sdk_url) = Done 1%positive h'
      /\ resource_url h' 1%positive
         = Some (net_url.set_RawQuery
                   (net_url.QueryEscape "a b" +:+ "=" +:+ net_url.QueryEscape "c&d=e/f")
                   sdk_url))
  /\ (exists h',
      WithAction 1%positive "add to" (one_resource sdk_url) = Done 1%positive h'
      /\ resource_url h' 1%positive
         = Some (net_url.set_RawQuery ("~action=" +:+ net_url.QueryEscape "add to")
                   sdk_url))
  /\ (exists h',
      WithID 1%positive "a b/c?d" (one_resource sdk_url) = Done 1%positive h'
      /\ resource_url h' 1%positive
         = Some (net_url.set_Path (net_url.Path sdk_url +:+ "/id:" +:+ "a b/c?d") sdk_url))
  /\ (forall c s, net_url.QueryEscape (String c s)
                  = query_byte c +:+ net_url.QueryEscape s)
  /\ net_url.QueryEscape "" = ""
  /\ (forall s, all_chars query_safe (net_url.QueryEscape s) = true).
Proof.
  apply (query_escaped_id_verbatim (one_resource sdk_url) 1%positive sdk_url
           "a b" "c&d=e/f" "add to" "a b/c?d").
  vm_compute. reflexivity.
Defined.

(** Escaping at work: the special characters of a name and a value. *)
Example WithParameter_escapes :
  match WithParameter 1%positive "a b" "c&d=e/f" (one_resource sdk_url) with
  | Done r h => net_url.RawQuery <$> resource_url h r
  | Panicked _ => None
  end = Some "a+b=c%26d%3De%2Ff".
Proof. vm_compute. reflexivity. Qed.

End BuilderClaims.

(** * Properties of the wire types and of the body encoder *)

Section WireTypes.

Import internal.

(** C8: [Reference] carries the type and the value of an associated
    object over to the managed-object reference, [NewAssociation] carries
    those of any reference over to the object its [ObjectID] points to, and
    the two conversions undo each other. *)
Theorem reference_conversions :
  (forall o : AssociatedObject,
      types.Type_ (Reference o) = Type_ o /\ types.Value (Reference o) = Value o)
  /\ (forall (A : Type) (impl : mo.Reference A) (ref : A),
         exists obj,
           ObjectID (NewAssociation ref) = Some obj
           /\ Type_ obj = types.Type_ (mo.Reference_ ref)
           /\ Value obj = types.Value (mo.Reference_ ref)
           /\ Reference obj = mo.Reference_ ref)
  /\ (forall o : AssociatedObject, NewAssociation o = mkAssociation (Some o))
  /\ (forall m : types.ManagedObjectReference, Reference (AssociatedObject_of m) = m)
  /\ (forall o : AssociatedObject, AssociatedObject_of (Reference o) = o).
Proof.
  repeat split.
  - intros A impl ref. exists (AssociatedObject_of (mo.Reference_ ref)).
    repeat split. now destruct (mo.Reference_ ref).
  - now intros [t v].
  - now intros [t v].
  - now intros [t v].
Qed.

End WireTypes.

Section Encode.

Import internal.

Lemma encode_Err body err :
  encoding_json.Marshal body = Err err ->
  encode body = io.mkReader (mkErrorReader err).
Proof.
  intros E. unfold encode, encoding_json.Encoder_Encode. now rewrite E.
Qed.

Lemma encode_Ok body text :
  encoding_json.Marshal body = Ok text ->
  encode body = io.mkReader (io.mkBuffer (text +:+ String "010" "")).
Proof.
  intros E. unfold encode, encoding_json.Encoder_Encode. now rewrite E.
Qed.

Lemma errorReader_after_reads err sizes :
  after_reads (io.mkReader (mkErrorReader err)) sizes
  = io.mkReader (mkErrorReader err).
Proof. induction sizes as [|n sizes IH]; [reflexivity|exact IH]. Qed.

(** C2: when serializing the body fails, [encode] still returns a reader
    (it has no error result and does not panic): the reader that holds the
    error, whose first [Read] answers with that error. *)
Theorem encode_defers_error (body : encoding_json.value) (err : error) (n : nat) :
  encoding_json.Marshal body = Err err ->
  encode body = io.mkReader (mkErrorReader err)
  /\ io.err (fst (io.Reader_Read (encode body) n)) = Some err.
Proof.
  intros E. rewrite (encode_Err _ _ E). split; reflexivity.
Qed.

Lemma encode_defers_error_witness :
  encode encoding_json.VChan
  = io.mkReader (mkErrorReader (JSONUnsupportedType "chan"))
  /\ io.err (fst (io.Reader_Read (encode encoding_json.VChan) 512))
     = Some (JSONUnsupportedType "chan").
Proof.
  apply (encode_defers_error encoding_json.VChan (JSONUnsupportedType "chan") 512).
  reflexivity.
Defined.

(** C9: when serializing the body fails, every [Read] of the reader
    [encode] returns, after any number of earlier reads, answers the count
    [-1] and the stored error, and writes nothing. *)
Theorem encode_error_on_every_read (body : encoding_json.value) (err : error)
    (sizes : list nat) (n : nat) :
  encoding_json.Marshal body = Err err ->
  fst (io.Reader_Read (after_reads (encode body) sizes) n)
  = io.mkRead (-1) "" (Some err).
Proof.
  intros E. rewrite (encode_Err _ _ E), errorReader_after_reads. reflexivity.
Qed.

Lemma encode_error_on_every_read_witness :
  fst (io.Reader_Read
         (after_reads
            (encode (encoding_json.VSlice [encoding_json.VInt 1; encoding_json.VFunc]))
            [512; 0; 7]) 512)
  = io.mkRead (-1) "" (Some (JSONUnsupportedType "func")).
Proof.
  apply (encode_error_on_every_read
           (encoding_json.VSlice [encoding_json.VInt 1; encoding_json.VFunc])
           (JSONUnsupportedType "func") [512; 0; 7] 512).
  reflexivity.
Defined.

End Encode.

Section RequestClaims.

Import internal.

Variable http_Request : Type.
Variable url_String : net_url.URL -> string.
Variable http_NewRequest : string -> string -> io.Reader -> result http_Request.

Lemma Request_run h r v method body :
  resource_url h r = Some v ->
  Request http_Request url_String http_NewRequest r method body h
  = match http_NewRequest method (url_String v)
            match body with [] => io.MultiReader_none | b :: _ => encode b end with
    | Ok req => Done req h
    | Err err => Panicked (PanicError err)
    end.
Proof.
  intros Hv. destruct (resource_url_Some _ _ _ Hv) as (res & Hr & Hu).
  unfold Request.
  rewrite (run_bind _ _ _ _ _ (load_resource_run _ _ _ Hr)).
  rewrite (run_bind _ _ _ _ _ (load_url_run _ _ _ Hu)).
  now destruct (http_NewRequest _ _ _).
Qed.

Lemma MultiReader_none_empty chunk fuel :
  io.ReadAll (S fuel) chunk io.MultiReader_none = Some (Ok "").
Proof. reflexivity. Qed.

End RequestClaims.

(** C7: [Request] without a body hands [http.NewRequest] the reader of
    no bytes, and with a body the reader [encode] makes of the first one.
    It returns the request [http.NewRequest] built and leaves the heap as it
    was; when [http.NewRequest] fails it panics with that error, and it
    panics with an error in no other case. *)
Theorem Request_body_and_panic (http_Request : Type)
    (url_String : net_url.URL -> string)
    (http_NewRequest : string -> string -> io.Reader -> result http_Request)
    (h : heap) (r : ptr) (v : net_url.URL) (method : string) :
  resource_url h r = Some v ->
  (forall fuel chunk,
      io.ReadAll (S fuel) chunk io.MultiReader_none = Some (Ok ""))
  /\ (forall req,
         http_NewRequest method (url_String v) io.MultiReader_none = Ok req ->
         internal.Request http_Request url_String http_NewRequest r method [] h
         = Done req h)
  /\ (forall b rest req,
         http_NewRequest method (url_String v) (internal.encode b) = Ok req ->
         internal.Request http_Request url_String http_NewRequest r method (b :: rest) h
         = Done req h)
  /\ (forall err,
         http_NewRequest method (url_String v) io.MultiReader_none = Err err ->
         internal.Request http_Request url_String http_NewRequest r method [] h
         = Panicked (PanicError err))
  /\ (forall b rest err,
         http_NewRequest method (url_String v) (internal.encode b) = Err err ->
         internal.Request http_Request url_String http_NewRequest r method (b :: rest) h
         = Panicked (PanicError err))
  /\ (forall body err,
         internal.Request http_Request url_String http_NewRequest r method body h
         = Panicked (PanicError err) ->
         http_NewRequest method (url_String v)
           match body with [] => io.MultiReader_none | b :: _ => internal.encode b end
         = Err err).
Proof.
  intros Hv. split; [intros; apply MultiReader_none_empty|].
  repeat split.
  - intros req E. rewrite (Request_run _ _ _ _ _ _ _ _ Hv). simpl. now rewrite E.
  - intros b rest req E. rewrite (Request_run _ _ _ _ _ _ _ _ Hv). simpl. now rewrite E.
  - intros err E. rewrite (Request_run _ _ _ _ _ _ _ _ Hv). simpl. now rewrite E.
  - intros b rest err E. rewrite (Request_run _ _ _ _ _ _ _ _ Hv). simpl. now rewrite E.
  - intros body err. rewrite (Request_run _ _ _ _ _ _ _ _ Hv).
    destruct (http_NewRequest _ _ _); [discriminate|]. now intros [= ->].
Qed.

Lemma Request_body_and_panic_witness :
  internal.Request net_http.Request net_http.String_ net_http.NewRequest
    1%positive "POST" [internal.Association_value datacenter_association]
    (one_resource sdk_url)
  = Done (net_http.mkRequest "POST" "https://host/sdk?a=b"
            (internal.encode (internal.Association_value datacenter_association)))
         (one_resource sdk_url)
  /\ internal.Request net_http.Request net_http.String_ net_http.NewRequest
       1%positive "GET" [] (one_resource sdk_url)
     = Done (net_http.mkRequest "GET" "https://host/sdk?a=b" io.MultiReader_none)
            (one_resource sdk_url)
  /\ internal.Request net_http.Request net_http.String_ net_http.NewRequest
       1%positive "GET" [] (one_resource sdk_url)
     <> Panicked NilDereference.
Proof.
  pose proof (Request_body_and_panic net_http.Request net_http.String_
                net_http.NewRequest (one_resource sdk_url) 1%positive sdk_url "POST")
    as HPOST.
  pose proof (Request_body_and_panic net_http.Request net_http.String_
                net_http.NewRequest (one_resource sdk_url) 1%positive sdk_url "GET")
    as HGET.
  destruct HPOST as (_ & _ & Hbody & _); [vm_compute; reflexivity|].
  destruct HGET as (_ & Hnone & _); [vm_compute; reflexivity|].
  split; [|split].
  - apply Hbody. reflexivity.
  - apply Hnone. reflexivity.
  - rewrite (Hnone (net_http.mkRequest "GET" "https://host/sdk?a=b" io.MultiReader_none)
               eq_refl).
    discriminate.
Defined.

(** A method that is no token makes [Request] panic, with the stand-in
    HTTP layer. *)
Example Request_panics :
  internal.Request net_http.Request net_http.String_ net_http.NewRequest
    1%positive "GE T" [] (one_resource sdk_url)
  = Panicked (PanicError (OtherError "net/http: invalid method")).
Proof. vm_compute. reflexivity. Qed.

(** The example of the spec: the text of the URL of a session resource,
    for a base URL without a query. *)
Example session_url :
  match internal.URL
          (soap.mkClient (net_url.mkURL "https" "" None "host" "" "" false "" ""))
          internal.SessionPath empty_heap with
  | Done r h => net_http.String_ <$> resource_url h r
  | Panicked _ => None
  end = Some "https://host/rest/com/vmware/cis/session".
Proof. vm_compute. reflexivity. Qed.

(** * The encoder and the decoder *)

Section Strings.

Import encoding_json.

Lemma length_append (s t : string) :
  String.length (s +:+ t) = String.length s + String.length t.
Proof. induction s as [|c s IH]; simpl; [reflexivity|now f_equal]. Qed.

Lemma append_cons c (s t : string) : String c s +:+ t = String c (s +:+ t).
Proof. reflexivity. Qed.

Lemma append_assoc (s t w : string) : (s +:+ t) +:+ w = s +:+ (t +:+ w).
Proof.
  induction s as [|c s IH]; [reflexivity|]. rewrite !append_cons. now f_equal.
Qed.

Lemma take_drop_bytes n s : take_bytes n s +:+ drop_bytes n s = s.
Proof.
  revert s. induction n as [|n IH]; intros [|c s]; simpl; try reflexivity.
  rewrite append_cons. now rewrite IH.
Qed.

Lemma drop_bytes_length n s : String.length (drop_bytes n s) = String.length s - n.
Proof.
  revert s. induction n as [|n IH]; intros [|c s]; simpl; try reflexivity. apply IH.
Qed.

Lemma drop_take_append n s t :
  n <= String.length s -> drop_bytes n (take_bytes n s +:+ t) = t.
Proof.
  revert s. induction n as [|n IH]; intros [|c s] Hn; simpl in *; try reflexivity; try lia.
  apply IH. lia.
Qed.

(** The value and the width [DecodeRune] finds for a valid sequence depend
    on the bytes of the sequence only. *)
Lemma DecodeRune_prefix p0 s c size t :
  utf8.DecodeRune (String p0 s) = (c, size) ->
  ((c =? utf8.RuneError)%N && (size =? 1)%nat) = false ->
  1 <= size <= String.length (String p0 s)
  /\ utf8.DecodeRune (take_bytes size (String p0 s) +:+ t) = (c, size).
Proof.
  unfold utf8.DecodeRune.
  destruct (code p0 <? utf8.RuneSelf)%N eqn:E0.
  { intros [= <- <-] _. simpl. rewrite E0. split; [lia|reflexivity]. }
  destruct ((code p0 <? 194)%N || (244 <? code p0)%N) eqn:E1.
  { intros [= <- <-]; discriminate. }
  destruct s as [|p1 s]; [intros [= <- <-]; discriminate|].
  destruct (utf8.accept_range (code p0)) as [lo hi] eqn:Ea.
  destruct ((code p1 <? lo)%N || (hi <? code p1)%N) eqn:E2.
  { intros [= <- <-]; discriminate. }
  destruct (code p0 <? 224)%N eqn:E3.
  { intros [= <- <-] _. simpl. rewrite E0, E1, Ea, E2, E3. split; [lia|reflexivity]. }
  destruct s as [|p2 s]; [intros [= <- <-]; discriminate|].
  destruct (negb (utf8.is_cont (code p2))) eqn:E4.
  { intros [= <- <-]; discriminate. }
  destruct (code p0 <? 240)%N eqn:E5.
  { intros [= <- <-] _. simpl. rewrite E0, E1, Ea, E2, E3, E4, E5.
    split; [lia|reflexivity]. }
  destruct s as [|p3 s]; [intros [= <- <-]; discriminate|].
  destruct (negb (utf8.is_cont (code p3))) eqn:E6.
  { intros [= <- <-]; discriminate. }
  intros [= <- <-] _. simpl. rewrite E0, E1, Ea, E2, E3, E4, E5, E6.
  split; [lia|reflexivity].
Qed.

Lemma take_bytes_length n s :
  n <= String.length s -> String.length (take_bytes n s) = n.
Proof.
  revert s. induction n as [|n IH]; intros [|c s] Hn; simpl in *; try reflexivity; try lia.
  rewrite IH; lia.
Qed.

Lemma string_body_cons n b s :
  string_body (S n) (String b s)
  = if (code b <? utf8.RuneSelf)%N then
      (if htmlSafe b then String b "" else escape_ascii b) +:+ string_body n s
    else
      let '(c, size) := utf8.DecodeRune (String b s) in
      if (c =? utf8.RuneError)%N && (size =? 1)%nat then
        replacement_escape +:+ string_body n (drop_bytes size (String b s))
      else if (c =? 0x2028)%N || (c =? 0x2029)%N then
        "\u202" +:+ String (hex_digit hex (N.land c 0xF)) ""
          +:+ string_body n (drop_bytes size (String b s))
      else
        take_bytes size (String b s) +:+ string_body n (drop_bytes size (String b s)).
Proof. reflexivity. Qed.

Lemma valid_text_cons n b s :
  valid_text (S n) (String b s)
  = if (code b <? utf8.RuneSelf)%N then String b (valid_text n s)
    else
      let '(c, size) := utf8.DecodeRune (String b s) in
      utf8.EncodeRune c +:+ valid_text n (drop_bytes size (String b s)).
Proof. reflexivity. Qed.

(** One step of the decoder on each kind of output of the encoder. *)
Lemma parse_string_safe f b tail :
  htmlSafe b = true ->
  parse_string (S f) (String b tail) = prepend (String b "") (parse_string f tail).
Proof. destruct b as [[] [] [] [] [] [] [] []]; intros H; try discriminate H; reflexivity. Qed.

Lemma parse_string_escape f b tail :
  (code b <? utf8.RuneSelf)%N = true ->
  htmlSafe b = false ->
  parse_string (S f) (escape_ascii b +:+ tail)
  = prepend (String b "") (parse_string f tail).
Proof.
  destruct b as [[] [] [] [] [] [] [] []]; intros H1 H2;
    try discriminate H1; try discriminate H2; reflexivity.
Qed.

Lemma escape_ascii_length b : 1 <= String.length (escape_ascii b).
Proof. destruct b as [[] [] [] [] [] [] [] []]; vm_compute; lia. Qed.

Lemma parse_string_high f b tail :
  (code b <? utf8.RuneSelf)%N = false ->
  parse_string (S f) (String b tail)
  = let '(rr, size) := utf8.DecodeRune (String b tail) in
    prepend (utf8.EncodeRune rr) (parse_string f (drop_bytes size (String b tail))).
Proof. destruct b as [[] [] [] [] [] [] [] []]; intros H; try discriminate H; reflexivity. Qed.

Lemma parse_string_replacement f tail :
  parse_string (S f) (replacement_escape +:+ tail)
  = prepend (utf8.EncodeRune utf8.RuneError) (parse_string f tail).
Proof. reflexivity. Qed.

Lemma parse_string_separator f c tail :
  (c =? 0x2028)%N || (c =? 0x2029)%N = true ->
  parse_string (S f) (("\u202" +:+ String (hex_digit hex (N.land c 0xF)) "") +:+ tail)
  = prepend (utf8.EncodeRune c) (parse_string f tail).
Proof.
  intros H. apply orb_true_iff in H as [H|H]; apply N.eqb_eq in H; subst c; reflexivity.
Qed.

(** Decoding what the string encoder wrote gives the text of the string. *)
Lemma parse_string_body n :
  forall s fuel rest,
    String.length s <= n ->
    String.length (string_body n s) < fuel ->
    parse_string fuel (string_body n s +:+ String dquote rest)
    = Some (valid_text n s, rest).
Proof.
  induction n as [|n IH]; intros s fuel rest Hlen Hfuel.
  { destruct s; [|simpl in Hlen; lia]. destruct fuel; [simpl in Hfuel; lia|]. reflexivity. }
  destruct s as [|b s].
  { destruct fuel; [simpl in Hfuel; lia|]. reflexivity. }
  rewrite string_body_cons in *. rewrite valid_text_cons.
  simpl in Hlen. destruct fuel as [|f]; [lia|].
  destruct (code b <? utf8.RuneSelf)%N eqn:Eb.
  - rewrite append_assoc. rewrite length_append in Hfuel.
    destruct (htmlSafe b) eqn:Es.
    + rewrite append_cons. change ("" +:+ ?x) with x.
      rewrite (parse_string_safe _ _ _ Es).
      simpl in Hfuel. rewrite IH by lia. reflexivity.
    + rewrite (parse_string_escape _ _ _ Eb Es).
      pose proof (escape_ascii_length b).
      rewrite IH by lia. reflexivity.
  - destruct (utf8.DecodeRune (String b s)) as [c size] eqn:Ed.
    destruct ((c =? utf8.RuneError)%N && (size =? 1)%nat) eqn:Einv.
    + apply andb_true_iff in Einv as [Ec Esz].
      apply N.eqb_eq in Ec. apply Nat.eqb_eq in Esz. subst c size.
      rewrite append_assoc, parse_string_replacement.
      rewrite length_append in Hfuel.
      change (String.length replacement_escape) with 6 in Hfuel.
      rewrite IH; [reflexivity| |lia].
      rewrite drop_bytes_length. simpl. lia.
    + destruct (DecodeRune_prefix b s c size
                  (string_body n (drop_bytes size (String b s)) +:+ String dquote rest)
                  Ed Einv) as [Hsize Hpre].
      assert (Hdrop : String.length (drop_bytes size (String b s)) <= n).
      { rewrite drop_bytes_length. simpl in *. lia. }
      destruct ((c =? 0x2028)%N || (c =? 0x2029)%N) eqn:Esep.
      * rewrite <- !append_assoc. rewrite (append_assoc _ _ (String dquote rest)).
        rewrite (parse_string_separator _ _ _ Esep).
        rewrite !length_append in Hfuel. simpl in Hfuel.
        rewrite IH by lia. reflexivity.
      * rewrite append_assoc.
        rewrite length_append, take_bytes_length in Hfuel by lia.
        assert (Hhead : exists t, take_bytes size (String b s) = String b t).
        { destruct size; [lia|]. simpl. eauto. }
        destruct Hhead as [t Ht]. rewrite Ht in *. rewrite append_cons in *.
        rewrite (parse_string_high _ _ _ Eb). rewrite Hpre.
        rewrite <- append_cons, <- Ht.
        rewrite drop_take_append by lia.
        rewrite IH by lia. reflexivity.
Qed.

(** A string literal, as the decoder reads it after the opening quote. *)
Lemma parse_quote s rest :
  exists body,
    quote s +:+ rest = String dquote (body +:+ String dquote rest)
    /\ parse_string (String.length (body +:+ String dquote rest))
         (body +:+ String dquote rest)
       = Some (text s, rest).
Proof.
  exists (string_body (String.length s) s). split.
  - unfold quote. rewrite append_cons, append_assoc. reflexivity.
  - apply parse_string_body; [lia|]. rewrite length_append. simpl. lia.
Qed.

End Strings.

Section Numbers.

Import encoding_json.

Lemma to_uint_no_leading_zero p d : Pos.to_uint p <> Decimal.D0 d.
Proof.
  intros E.
  assert (Hn : Pos.to_uint p = Decimal.unorm (Pos.to_uint p)).
  { rewrite <- DecimalPos.Unsigned.to_of, DecimalPos.Unsigned.of_to. reflexivity. }
  rewrite E, DecimalFacts.unorm_D0 in Hn.
  destruct (Decimal.uint_eq_dec d Decimal.Nil) as [->|Hd].
  - apply (DecimalPos.Unsigned.to_uint_nonzero p). exact E.
  - pose proof (DecimalFacts.nb_digits_unorm d Hd) as Hle.
    rewrite <- Hn in Hle. simpl in Hle. lia.
Qed.

Lemma scan_digits_end rest : ends_digits rest -> scan_digits rest = (Decimal.Nil, rest).
Proof. destruct rest as [|c rest]; simpl; [reflexivity|]. now intros ->. Qed.

Lemma scan_digits_string_of_uint d rest :
  ends_digits rest ->
  scan_digits (NilEmpty.string_of_uint d +:+ rest) = (d, rest).
Proof.
  intros H. induction d; simpl; rewrite ?append_cons.
  1: now apply scan_digits_end.
  all: simpl; now rewrite IHd.
Qed.

Lemma closes_value_ends rest :
  closes_value rest -> ends_digits rest /\ starts_fraction rest = false.
Proof.
  destruct rest as [|c rest]; simpl; [easy|].
  intros [-> | [-> | [-> | ->]]]; split; reflexivity.
Qed.

Lemma string_of_uint_head d :
  d <> Decimal.Nil ->
  exists c t, NilEmpty.string_of_uint d = String c t /\ is_digit c = true.
Proof. destruct d; [easy|..]; intros _; simpl; eauto. Qed.

Lemma parse_number_uint (neg : bool) d rest :
  d <> Decimal.Nil ->
  (forall d', d <> Decimal.D0 d' \/ d' = Decimal.Nil) ->
  closes_value rest ->
  parse_number ((if neg then "-" else "") +:+ NilEmpty.string_of_uint d +:+ rest)
  = Some (Z.of_int (if neg then Decimal.Neg d else Decimal.Pos d), rest).
Proof.
  intros Hnil Hzero Hrest.
  destruct (closes_value_ends _ Hrest) as [Hend Hfrac].
  destruct (string_of_uint_head d Hnil) as (c & t & Hc & Hdig).
  unfold parse_number.
  assert (Hscan : (let '(neg', s1) :=
             match (if neg then "-" else "") +:+ NilEmpty.string_of_uint d +:+ rest with
             | String c s' =>
                 if Ascii.eqb c "-" then (true, s')
                 else (false, (if neg then "-" else "") +:+ NilEmpty.string_of_uint d +:+ rest)
             | EmptyString => (false, (if neg then "-" else "") +:+ NilEmpty.string_of_uint d +:+ rest)
             end in (neg', s1))
          = (neg, NilEmpty.string_of_uint d +:+ rest)).
  { destruct neg; [reflexivity|]. change ("" +:+ ?x) with x.
    rewrite Hc, append_cons.
    destruct c as [[] [] [] [] [] [] [] []]; try discriminate Hdig; reflexivity. }
  destruct (match (if neg then "-" else "") +:+ NilEmpty.string_of_uint d +:+ rest with
            | String c s' => _ | EmptyString => _ end) as [neg' s1].
  injection Hscan as -> ->.
  rewrite (scan_digits_string_of_uint d rest Hend).
  destruct d as [|d'|d1|d1|d1|d1|d1|d1|d1|d1|d1]; try easy; try (now rewrite Hfrac).
  destruct (Hzero d') as [H | ->]; [easy|]. now rewrite Hfrac.
Qed.

(** Decoding the decimal text of an integer gives the integer. *)
Lemma parse_number_int n rest :
  closes_value rest ->
  parse_number (NilZero.string_of_int (Z.to_int n) +:+ rest) = Some (n, rest).
Proof.
  intros Hrest. rewrite <- (DecimalZ.of_to n) at 2.
  destruct n as [|p|p]; simpl Z.to_int.
  - apply (parse_number_uint false (Decimal.D0 Decimal.Nil) rest); [easy| |easy].
    intros d'. destruct (Decimal.uint_eq_dec d' Decimal.Nil); [now right|left; congruence].
  - pose proof (DecimalPos.Unsigned.to_uint_nonnil p) as Hnil.
    assert (E : NilZero.string_of_int (Decimal.Pos (Pos.to_uint p))
                = "" +:+ NilEmpty.string_of_uint (Pos.to_uint p)).
    { simpl. now destruct (Pos.to_uint p). }
    rewrite E, append_assoc.
    apply (parse_number_uint false (Pos.to_uint p) rest); [easy| |easy].
    intros d'. left. apply to_uint_no_leading_zero.
  - pose proof (DecimalPos.Unsigned.to_uint_nonnil p) as Hnil.
    assert (E : NilZero.string_of_int (Decimal.Neg (Pos.to_uint p))
                = "-" +:+ NilEmpty.string_of_uint (Pos.to_uint p)).
    { simpl. now destruct (Pos.to_uint p). }
    rewrite E, append_assoc.
    apply (parse_number_uint true (Pos.to_uint p) rest); [easy| |easy].
    intros d'. left. apply to_uint_no_leading_zero.
Qed.

Lemma number_head n :
  exists c t, NilZero.string_of_int (Z.to_int n) = String c t
              /\ (is_digit c || Ascii.eqb c "-") = true.
Proof.
  destruct n as [|p|p]; simpl.
  - eauto.
  - pose proof (DecimalPos.Unsigned.to_uint_nonnil p) as Hnil.
    destruct (string_of_uint_head _ Hnil) as (c & t & Hc & Hd).
    exists c, t. split; [|now rewrite Hd].
    unfold NilZero.string_of_uint. now destruct (Pos.to_uint p).
  - eauto.
Qed.

End Numbers.

Section Values.

Import encoding_json.

Lemma value_start_tests c :
  value_start c = true ->
  is_space c = false /\ Ascii.eqb c "]" = false /\ Ascii.eqb c "}" = false.
Proof. destruct c as [[] [] [] [] [] [] [] []]; intros H; try discriminate H; easy. Qed.

Lemma Marshal_slice vs :
  Marshal (VSlice vs)
  = match Marshal_elems vs with
    | Ok bs => Ok ("[" +:+ sep_close "]" bs)
    | Err e => Err e
    end.
Proof. reflexivity. Qed.

Lemma Marshal_struct fs :
  Marshal (VStruct fs)
  = match Marshal_members fs with
    | Ok bs => Ok ("{" +:+ sep_close "}" bs)
    | Err e => Err e
    end.
Proof. reflexivity. Qed.

Lemma to_json_slice vs :
  to_json (VSlice vs)
  = match to_json_elems vs with Ok js => Ok (JArray js) | Err e => Err e end.
Proof. reflexivity. Qed.

Lemma to_json_struct fs :
  to_json (VStruct fs)
  = match to_json_members fs with Ok js => Ok (JObject js) | Err e => Err e end.
Proof. reflexivity. Qed.

Lemma Marshal_elems_cons v vs :
  Marshal_elems (v :: vs)
  = match Marshal v with
    | Err e => Err e
    | Ok b => match Marshal_elems vs with Err e => Err e | Ok bs => Ok (b :: bs) end
    end.
Proof. reflexivity. Qed.

Lemma to_json_elems_cons v vs :
  to_json_elems (v :: vs)
  = match to_json v with
    | Err e => Err e
    | Ok j => match to_json_elems vs with Err e => Err e | Ok js => Ok (j :: js) end
    end.
Proof. reflexivity. Qed.

Lemma Marshal_members_cons f v fs :
  Marshal_members ((f, v) :: fs)
  = if omitempty f && isEmptyValue v then Marshal_members fs
    else match Marshal v with
         | Err e => Err e
         | Ok b =>
             match Marshal_members fs with
             | Err e => Err e
             | Ok bs => Ok ((quote (key f) +:+ ":" +:+ b) :: bs)
             end
         end.
Proof. reflexivity. Qed.

Lemma to_json_members_cons f v fs :
  to_json_members ((f, v) :: fs)
  = if omitempty f && isEmptyValue v then to_json_members fs
    else match to_json v with
         | Err e => Err e
         | Ok j =>
             match to_json_members fs with
             | Err e => Err e
             | Ok js => Ok ((text (key f), j) :: js)
             end
         end.
Proof. reflexivity. Qed.

(** The text of a value starts with a byte that only a value starts with. *)
Lemma Marshal_head v :
  forall t, Marshal v = Ok t -> exists c t', t = String c t' /\ value_start c = true.
Proof.
  induction v using value_induction; intros t Ht.
  - injection Ht as <-. now exists "n"%char, "ull".
  - injection Ht as <-. destruct b; [now exists "t"%char, "rue"|now exists "f"%char, "alse"].
  - injection Ht as <-. destruct (number_head n) as (c & t' & E & Hc).
    exists c, t'. split; [exact E|].
    destruct c as [[] [] [] [] [] [] [] []]; try discriminate Hc; reflexivity.
  - injection Ht as <-. unfold quote. eauto.
  - apply IHv. exact Ht.
  - rewrite Marshal_slice in Ht. destruct (Marshal_elems vs); [|discriminate].
    injection Ht as <-. now exists "["%char, (sep_close "]" a).
  - rewrite Marshal_struct in Ht. destruct (Marshal_members fs); [|discriminate].
    injection Ht as <-. now exists "{"%char, (sep_close "}" a).
  - discriminate.
  - discriminate.
Qed.

(** The decoder, step by step. *)
Lemma parse_value_null f rest : parse_value (S f) ("null" +:+ rest) = Some (JNull, rest).
Proof. reflexivity. Qed.

Lemma parse_value_true f rest : parse_value (S f) ("true" +:+ rest) = Some (JBool true, rest).
Proof. reflexivity. Qed.

Lemma parse_value_false f rest :
  parse_value (S f) ("false" +:+ rest) = Some (JBool false, rest).
Proof. reflexivity. Qed.

Lemma parse_value_number f c s :
  (is_digit c || Ascii.eqb c "-") = true ->
  parse_value (S f) (String c s)
  = '(n, rest) ← parse_number (String c s); Some (JNumber n, rest).
Proof. destruct c as [[] [] [] [] [] [] [] []]; intros H; try discriminate H; reflexivity. Qed.

Lemma parse_value_string f s :
  parse_value (S f) (String dquote s)
  = '(t, rest) ← parse_string (String.length s) s; Some (JString t, rest).
Proof. reflexivity. Qed.

Lemma parse_value_array f s :
  parse_value (S f) (String "[" s)
  = match skip_space s with
    | String d s'' =>
        if Ascii.eqb d "]" then Some (JArray [], s'')
        else '(js, rest) ← parse_elements f s; Some (JArray js, rest)
    | EmptyString => None
    end.
Proof. reflexivity. Qed.

Lemma parse_value_object f s :
  parse_value (S f) (String "{" s)
  = match skip_space s with
    | String d s'' =>
        if Ascii.eqb d "}" then Some (JObject [], s'')
        else '(ms, rest) ← parse_members f s; Some (JObject ms, rest)
    | EmptyString => None
    end.
Proof. reflexivity. Qed.

Lemma parse_elements_step f s :
  parse_elements (S f) s
  = '(j, rest) ← parse_value f s;
    match skip_space rest with
    | String c rest' =>
        if Ascii.eqb c "," then
          '(js, rest'') ← parse_elements f rest'; Some (j :: js, rest'')
        else if Ascii.eqb c "]" then Some ([j], rest')
        else None
    | EmptyString => None
    end.
Proof. reflexivity. Qed.

Lemma parse_members_step f s1 :
  parse_members (S f) (String dquote s1)
  = '(k, s2) ← parse_string (String.length s1) s1;
    match skip_space s2 with
    | String c s3 =>
        if Ascii.eqb c ":" then
          '(j, rest) ← parse_value f s3;
          match skip_space rest with
          | String d rest' =>
              if Ascii.eqb d "," then
                '(ms, rest'') ← parse_members f rest';
                Some ((k, j) :: ms, rest'')
              else if Ascii.eqb d "}" then Some ([(k, j)], rest')
              else None
          | EmptyString => None
          end
        else None
    | EmptyString => None
    end.
Proof. reflexivity. Qed.

Lemma sep_close_cons close x xs :
  sep_close close (x :: xs)
  = x +:+ match xs with [] => close | _ :: _ => "," +:+ sep_close close xs end.
Proof. reflexivity. Qed.

(** The elements of a slice, after the opening bracket. *)
Lemma elements_decode_back vs :
  Forall decodes_back vs ->
  forall bs, Marshal_elems vs = Ok bs ->
    exists js, to_json_elems vs = Ok js
      /\ (bs = [] -> js = [])
      /\ forall fuel rest,
           bs <> [] ->
           String.length (sep_close "]" bs) < fuel ->
           parse_elements fuel (sep_close "]" bs +:+ rest) = Some (js, rest).
Proof.
  induction 1 as [|v vs Hv Hvs IH]; intros bs Hbs.
  { injection Hbs as <-. exists []. repeat split; easy. }
  rewrite Marshal_elems_cons in Hbs.
  destruct (Marshal v) as [b|] eqn:Eb; [|discriminate].
  destruct (Marshal_elems vs) as [bs'|] eqn:Ebs; [|discriminate].
  injection Hbs as <-.
  destruct (Hv b Eb) as (j & Hj & Hparse).
  destruct (IH bs' eq_refl) as (js & Hjs & Hnil & Hrest).
  exists (j :: js). rewrite to_json_elems_cons, Hj, Hjs.
  split; [reflexivity|]. split; [discriminate|].
  intros fuel rest _ Hfuel.
  rewrite sep_close_cons, length_append in Hfuel. rewrite sep_close_cons, append_assoc.
  destruct fuel as [|f]; [lia|]. rewrite parse_elements_step.
  destruct bs' as [|b' bs'].
  - rewrite Hparse; [|now right; left|simpl in Hfuel; lia].
    rewrite (Hnil eq_refl). reflexivity.
  - rewrite length_append in Hfuel.
    change (String.length ",") with 1 in Hfuel.
    rewrite Hparse; [|now left|lia].
    simpl. rewrite Hrest; [reflexivity|discriminate|lia].
Qed.

Lemma Marshal_members_quote fs bs :
  Marshal_members fs = Ok bs ->
  Forall (fun b => exists t, b = String dquote t) bs.
Proof.
  revert bs. induction fs as [|[f v] fs IH]; intros bs Hbs.
  { injection Hbs as <-. constructor. }
  rewrite Marshal_members_cons in Hbs.
  destruct (omitempty f && isEmptyValue v); [now apply IH|].
  destruct (Marshal v); [|discriminate].
  destruct (Marshal_members fs) as [bs'|]; [|discriminate].
  injection Hbs as <-. constructor; [|now apply IH].
  unfold quote. rewrite append_cons. eauto.
Qed.

(** The members of a struct, after the opening brace. *)
Lemma members_decode_back fs :
  Forall (fun fv => decodes_back (snd fv)) fs ->
  forall bs, Marshal_members fs = Ok bs ->
    exists js, to_json_members fs = Ok js
      /\ (bs = [] -> js = [])
      /\ forall fuel rest,
           bs <> [] ->
           String.length (sep_close "}" bs) < fuel ->
           parse_members fuel (sep_close "}" bs +:+ rest) = Some (js, rest).
Proof.
  induction 1 as [|[fd v] fs Hv Hfs IH]; intros bs Hbs.
  { injection Hbs as <-. exists []. repeat split; easy. }
  rewrite Marshal_members_cons in Hbs. rewrite to_json_members_cons.
  destruct (omitempty fd && isEmptyValue v); [now apply IH|].
  destruct (Marshal v) as [b|] eqn:Eb; [|discriminate].
  destruct (Marshal_members fs) as [bs'|] eqn:Ebs; [|discriminate].
  injection Hbs as <-.
  destruct (Hv b Eb) as (j & Hj & Hparse).
  destruct (IH bs' eq_refl) as (js & Hjs & Hnil & Hrest).
  exists ((text (key fd), j) :: js). simpl in Hj. rewrite Hj, Hjs.
  split; [reflexivity|]. split; [discriminate|].
  intros fuel rest _ Hfuel.
  rewrite sep_close_cons, !length_append in Hfuel.
  rewrite sep_close_cons, !append_assoc.
  destruct (parse_quote (key fd)
              (":" +:+ b +:+ match bs' with
                            | [] => "}"
                            | _ :: _ => "," +:+ sep_close "}" bs'
                            end +:+ rest)) as (body & Hq & Hk).
  rewrite Hq. destruct fuel as [|f]; [lia|].
  rewrite parse_members_step, Hk. simpl.
  change ("" +:+ ?x) with x.
  change (String.length ":") with 1 in Hfuel.
  destruct bs' as [|b' bs'].
  - rewrite Hparse; [|now right; right; left|simpl in Hfuel; lia].
    rewrite (Hnil eq_refl). reflexivity.
  - rewrite length_append in Hfuel.
    change (String.length ",") with 1 in Hfuel.
    rewrite Hparse; [|now left|lia].
    simpl. rewrite Hrest; [reflexivity|discriminate|lia].
Qed.

(** Every value the encoder accepts is decoded back to its JSON
    representation. *)
Lemma value_decodes_back v : decodes_back v.
Proof.
  induction v using value_induction; intros t Ht.
  - injection Ht as <-. exists JNull. split; [reflexivity|].
    intros [|f] rest _ Hf; [simpl in Hf; lia|]. apply parse_value_null.
  - injection Ht as <-. exists (JBool b). split; [reflexivity|].
    intros [|f] rest _ Hf; [simpl in Hf; lia|].
    destruct b; [apply parse_value_true|apply parse_value_false].
  - injection Ht as <-. exists (JNumber n). split; [reflexivity|].
    intros [|f] rest Hrest Hf; [simpl in Hf; lia|].
    pose proof (parse_number_int n rest Hrest) as Hn.
    destruct (number_head n) as (c & t' & E & Hc).
    rewrite E in *. rewrite append_cons in *.
    rewrite (parse_value_number _ _ _ Hc), Hn. reflexivity.
  - injection Ht as <-. exists (JString (text s)). split; [reflexivity|].
    intros [|f] rest _ Hf; [simpl in Hf; lia|].
    destruct (parse_quote s rest) as (body & Hq & Hk).
    rewrite Hq, parse_value_string, Hk. reflexivity.
  - apply IHv. exact Ht.
  - rewrite Marshal_slice in Ht.
    destruct (Marshal_elems vs) as [bs|] eqn:Ebs; [|discriminate].
    injection Ht as <-.
    destruct (elements_decode_back vs H bs Ebs) as (js & Hjs & Hnil & Hparse).
    exists (JArray js). rewrite to_json_slice, Hjs. split; [reflexivity|].
    intros [|f] rest _ Hf; [simpl in Hf; lia|].
    rewrite length_append in Hf. change (String.length "[") with 1 in Hf.
    rewrite append_assoc, append_cons, parse_value_array. change ("" +:+ ?x) with x.
    destruct bs as [|b bs].
    + rewrite (Hnil eq_refl). reflexivity.
    + assert (Hb : exists c t', b = String c t' /\ value_start c = true).
      { destruct vs as [|v vs]; [discriminate|].
        rewrite Marshal_elems_cons in Ebs.
        destruct (Marshal v) as [b0|] eqn:Eb0; [|discriminate].
        destruct (Marshal_elems vs); [|discriminate].
        injection Ebs as <- _. exact (Marshal_head v b0 Eb0). }
      destruct Hb as (c & t' & -> & Hc).
      destruct (value_start_tests c Hc) as (Hs & Hclose & _).
      rewrite Hparse by (try discriminate; lia).
      rewrite sep_close_cons, !append_cons. simpl. rewrite Hs, Hclose. reflexivity.
  - rewrite Marshal_struct in Ht.
    destruct (Marshal_members fs) as [bs|] eqn:Ebs; [|discriminate].
    injection Ht as <-.
    destruct (members_decode_back fs H bs Ebs) as (js & Hjs & Hnil & Hparse).
    exists (JObject js). rewrite to_json_struct, Hjs. split; [reflexivity|].
    intros [|f] rest _ Hf; [simpl in Hf; lia|].
    rewrite length_append in Hf. change (String.length "{") with 1 in Hf.
    rewrite append_assoc, append_cons, parse_value_object. change ("" +:+ ?x) with x.
    destruct bs as [|b bs].
    + rewrite (Hnil eq_refl). reflexivity.
    + pose proof (Marshal_members_quote fs _ Ebs) as Hq.
      apply Forall_cons in Hq as [[t' ->] _].
      rewrite Hparse by (try discriminate; lia).
      rewrite sep_close_cons, !append_cons. reflexivity.
  - discriminate.
  - discriminate.
Qed.

End Values.

Section Representation.

Import encoding_json.





End Representation.

Section RoundTrip.

Import encoding_json.




(** The round trip at work on a slice of values of every kind. *)
Example round_trip_slice :
  let v := VSlice [VInt (-12); VString "a<b"; VNil; VBool true; VSlice [];
                   internal.Association_value datacenter_association] in
  match Marshal v with
  | Ok t => Unmarshal (t +:+ newline)
  | Err _ => None
  end
  = Some (JArray [JNumber (-12); JString "a<b"; JNull; JBool true; JArray [];
                  JObject [("object_id",
                            JObject [("type", JString "Datacenter");
                                     ("id", JString "dc-1")])]]).
Proof. vm_compute. reflexivity. Qed.

(** C5: an [AssociatedObject] is written as an object with the members
    [type] and [id], in that order; an [Association] with an [ObjectID] as
    an object whose one member [object_id] is that object; and an
    [Association] without one as the empty object: the member is left out
    and no [null] is written. *)
Theorem wire_format :
  (forall o : internal.AssociatedObject,
      to_json (internal.AssociatedObject_value o)
      = Ok (JObject [("type", JString (text (internal.Type_ o)));
                     ("id", JString (text (internal.Value o)))])
      /\ Marshal (internal.AssociatedObject_value o)
         = Ok (dq "{'type':" +:+ quote (internal.Type_ o)
                 +:+ dq ",'id':" +:+ quote (internal.Value o) +:+ "}"))
  /\ (forall o : internal.AssociatedObject,
         to_json (internal.Association_value (internal.mkAssociation (Some o)))
         = Ok (JObject
                 [("object_id",
                   JObject [("type", JString (text (internal.Type_ o)));
                            ("id", JString (text (internal.Value o)))])])
         /\ Marshal (internal.Association_value (internal.mkAssociation (Some o)))
            = Ok (dq "{'object_id':{'type':" +:+ quote (internal.Type_ o)
                    +:+ dq ",'id':" +:+ quote (internal.Value o) +:+ "}}"))
  /\ to_json (internal.Association_value (internal.mkAssociation None)) = Ok (JObject [])
  /\ Marshal (internal.Association_value (internal.mkAssociation None)) = Ok "{}"
  /\ Marshal (internal.Association_value datacenter_association)
     = Ok (dq "{'object_id':{'type':'Datacenter','id':'dc-1'}}").
Proof.
  split; [|split]; [intros o; split|intros o; split|repeat split].
  - reflexivity.
  - unfold internal.AssociatedObject_value. rewrite Marshal_struct.
    rewrite !Marshal_members_cons. simpl.
    rewrite !append_assoc. reflexivity.
  - reflexivity.
  - unfold internal.Association_value, internal.AssociatedObject_value.
    rewrite Marshal_struct. rewrite Marshal_members_cons. simpl.
    rewrite !append_assoc. reflexivity.
Qed.

End RoundTrip.

(** * Further properties of the resource builder *)

Section BuilderHeap.

Import internal.

Lemma run_bind_panic {A B} (m : M A) (k : A -> M B) h q :
  m h = Panicked q -> (m ≫= k) h = Panicked q.
Proof. intros E. unfold mbind, M_bind, bind. now rewrite E. Qed.

Lemma fresh_resource_None (h : heap) : resources h !! fresh (dom (resources h)) = None.
Proof. apply not_elem_of_dom, is_fresh. Qed.

Lemma URL_run_nil {C} `{CloneURL C} (c : C) path h p h1 :
  CloneURL_URL c h = Done p h1 ->
  urls h1 !! p = None ->
  URL c path h = Panicked NilDereference.
Proof.
  intros Hc Hp. unfold URL.
  rewrite (run_bind _ _ _ _ _ Hc).
  erewrite run_bind; [|reflexivity].
  erewrite run_bind; [|apply load_resource_run; simpl; apply lookup_insert_eq].
  apply run_bind_panic. unfold load_url. simpl. now rewrite Hp.
Qed.

(** X1: [URL] writes the new path into the URL object the connection
    handed out: every resource that already points to that object sees the
    new path. No other URL changes, the resources there were are kept, and
    the resource returned is a new one. *)
Theorem URL_writes_in_place {C} `{CloneURL C} (c : C) (path : string) h p h1 b :
  CloneURL_URL c h = Done p h1 ->
  urls h1 !! p = Some b ->
  exists r h2,
    URL c path h = Done r h2
    /\ resources h1 !! r = None
    /\ resources h2 = <[r := mkResource p]> (resources h1)
    /\ urls h2 !! p = Some (net_url.set_Path ("/rest" +:+ path) b)
    /\ (forall q, q <> p -> urls h2 !! q = urls h1 !! q)
    /\ dom (urls h2) = dom (urls h1)
    /\ (forall r' res',
           resources h1 !! r' = Some res' ->
           resources h2 !! r' = Some res'
           /\ (u res' = p ->
               resource_url h2 r' = Some (net_url.set_Path ("/rest" +:+ path) b))
           /\ (u res' <> p -> resource_url h2 r' = resource_url h1 r')).
Proof.
  intros Hc Hb. do 2 eexists. split; [apply (URL_run c path h p h1 b Hc Hb)|].
  simpl. split; [apply fresh_resource_None|]. split; [reflexivity|].
  split; [apply lookup_insert_eq|].
  split; [intros q Hq; now apply lookup_insert_ne|].
  split.
  { apply dom_insert_lookup_L. now exists b. }
  intros r' res' Hr'.
  assert (Hne : fresh (dom (resources h1)) <> r').
  { intros <-. rewrite fresh_resource_None in Hr'. discriminate. }
  assert (Hkeep : <[fresh (dom (resources h1)) := mkResource p]> (resources h1) !! r'
                  = Some res') by (rewrite lookup_insert_ne; assumption).
  split; [exact Hkeep|]. unfold resource_url. simpl. rewrite Hkeep, Hr'. simpl.
  split.
  - intros ->. apply lookup_insert_eq.
  - intros Hu. apply lookup_insert_ne. congruence.
Qed.

Lemma URL_writes_in_place_witness :
  let h1 := mkHeap (<[2%positive := sdk_url]> (urls (one_resource sdk_url)))
                   (resources (one_resource sdk_url)) in
  exists r h2,
    URL sdk_client SessionPath (one_resource sdk_url) = Done r h2
    /\ resources h1 !! r = None
    /\ resources h2 = <[r := mkResource 2%positive]> (resources h1)
    /\ urls h2 !! 2%positive = Some (net_url.set_Path ("/rest" +:+ SessionPath) sdk_url)
    /\ (forall q, q <> 2%positive -> urls h2 !! q = urls h1 !! q)
    /\ dom (urls h2) = dom (urls h1)
    /\ (forall r' res',
           resources h1 !! r' = Some res' ->
           resources h2 !! r' = Some res'
           /\ (u res' = 2%positive ->
               resource_url h2 r'
               = Some (net_url.set_Path ("/rest" +:+ SessionPath) sdk_url))
           /\ (u res' <> 2%positive -> resource_url h2 r' = resource_url h1 r')).
Proof.
  intros h1.
  apply (URL_writes_in_place sdk_client SessionPath (one_resource sdk_url) 2%positive
           h1 sdk_url).
  - vm_compute. reflexivity.
  - vm_compute. reflexivity.
Defined.

(** X2: [URL] panics exactly when the connection's [URL()] panics, with
    the same value, or returns a pointer to no URL, with a nil
    dereference. *)
Theorem URL_panics_iff {C} `{CloneURL C} (c : C) (path : string) h q :
  URL c path h = Panicked q
  <-> CloneURL_URL c h = Panicked q
      \/ (q = NilDereference
          /\ exists p h1, CloneURL_URL c h = Done p h1 /\ urls h1 !! p = None).
Proof.
  destruct (CloneURL_URL c h) as [p h1|q'] eqn:Hc.
  - destruct (urls h1 !! p) as [b|] eqn:Hp.
    + rewrite (URL_run c path h p h1 b Hc Hp). split; [discriminate|].
      intros [E|(_ & p' & h1' & E & Hnone)]; [discriminate|].
      injection E as Ep Eh. subst. congruence.
    + rewrite (URL_run_nil c path h p h1 Hc Hp). split.
      * intros [= <-]. right. split; [reflexivity|]. now exists p, h1.
      * intros [E|(-> & _)]; [discriminate|reflexivity].
  - unfold URL. rewrite (run_bind_panic _ _ _ _ Hc). split.
    + intros [= <-]. now left.
    + intros [[= <-]|(_ & p & h1 & E & _)]; [reflexivity|discriminate].
Qed.

Lemma update_url_panics f h r :
  resource_url h r = None -> update_url f r h = Panicked NilDereference.
Proof.
  unfold resource_url, update_url. intros Hn.
  destruct (resources h !! r) as [res|] eqn:Hr; simpl in Hn.
  - rewrite (run_bind _ _ _ _ _ (load_resource_run _ _ _ Hr)).
    apply run_bind_panic. unfold load_url. now rewrite Hn.
  - apply run_bind_panic. unfold load_resource. now rewrite Hr.
Qed.

Lemma update_url_panics_iff f h r q :
  update_url f r h = Panicked q <-> q = NilDereference /\ resource_url h r = None.
Proof.
  destruct (resource_url h r) as [v|] eqn:Hv.
  - destruct (update_url_resource f h r v Hv) as (h' & Hrun & _).
    rewrite Hrun. split; [discriminate|]. now intros [_ E].
  - rewrite (update_url_panics f h r Hv). split.
    + now intros [= <-].
    + now intros [-> _].
Qed.

Lemma run_call_update c r :
  run_call c r = update_url (call_url c) r.
Proof.
  destruct c as [id|action|name value]; simpl.
  - apply WithID_update.
  - now rewrite WithAction_update, Encode_singleton.
  - now rewrite WithParameter_update, Encode_Set_empty.
Qed.

End BuilderHeap.

Section BuilderCalls.

Import internal.

Lemma update_url_frame f h r v :
  resource_url h r = Some v ->
  exists h' res,
    update_url f r h = Done r h'
    /\ resources h !! r = Some res
    /\ urls h' = <[u res := f v]> (urls h)
    /\ resources h' = resources h
    /\ resource_url h' r = Some (f v)
    /\ dom (urls h') = dom (urls h).
Proof.
  intros Hv. destruct (resource_url_Some _ _ _ Hv) as (res & Hr & Hu).
  eexists. exists res. split; [apply (update_url_run f h r res v Hr Hu)|].
  simpl. split; [exact Hr|]. split; [reflexivity|]. split; [reflexivity|].
  split.
  - unfold resource_url. simpl. rewrite Hr. simpl. apply lookup_insert_eq.
  - apply dom_insert_lookup_L. now exists v.
Qed.

(** Two updates of the URL of a resource, one after the other, are one
    update. *)
Lemma update_url_twice f g r h :
  (r1 ← update_url f r; update_url g r1) h = update_url (fun v => g (f v)) r h.
Proof.
  destruct (resource_url h r) as [v|] eqn:Hv.
  - destruct (resource_url_Some _ _ _ Hv) as (res & Hr & Hu).
    rewrite (run_bind _ _ _ _ _ (update_url_run f h r res v Hr Hu)).
    rewrite (update_url_run g _ r res (f v)); [|exact Hr|apply lookup_insert_eq].
    rewrite (update_url_run _ h r res v Hr Hu). simpl.
    now rewrite insert_insert_eq.
  - rewrite (run_bind_panic _ _ _ _ (update_url_panics f h r Hv)).
    now rewrite (update_url_panics _ h r Hv).
Qed.

Lemma update_url_ext f g r h :
  (forall v, f v = g v) -> update_url f r h = update_url g r h.
Proof.
  intros Hfg. destruct (resource_url h r) as [v|] eqn:Hv.
  - destruct (resource_url_Some _ _ _ Hv) as (res & Hr & Hu).
    rewrite (update_url_run f h r res v Hr Hu), (update_url_run g h r res v Hr Hu).
    now rewrite Hfg.
  - now rewrite !update_url_panics.
Qed.

Lemma Resource_String_run url_String h r v :
  resource_url h r = Some v ->
  Resource_String url_String r h = Done (url_String v) h.
Proof.
  intros Hv. destruct (resource_url_Some _ _ _ Hv) as (res & Hr & Hu).
  unfold Resource_String.
  rewrite (run_bind _ _ _ _ _ (load_resource_run _ _ _ Hr)).
  rewrite (run_bind _ _ _ _ _ (load_url_run _ _ _ Hu)). reflexivity.
Qed.

Lemma load_url_of_resource_panics {A} (k : net_url.URL -> M A) h r :
  resource_url h r = None ->
  (res ← load_resource r; v ← load_url (u res); k v) h = Panicked NilDereference.
Proof.
  unfold resource_url. intros Hn.
  destruct (resources h !! r) as [res|] eqn:Hr; simpl in Hn.
  - rewrite (run_bind _ _ _ _ _ (load_resource_run _ _ _ Hr)).
    apply run_bind_panic. unfold load_url. now rewrite Hn.
  - apply run_bind_panic. unfold load_resource. now rewrite Hr.
Qed.

(** X3: a method of the builder panics exactly when its resource is nil
    or wraps a nil URL, and then with a nil dereference; for [Request]
    this is the only way to a nil dereference. *)
Theorem methods_panic_iff (http_Request : Type) (url_String : net_url.URL -> string)
    (http_NewRequest : string -> string -> io.Reader -> result http_Request)
    (h : heap) (r : ptr) (q : panic) (id action name value method : string)
    (body : list encoding_json.value) :
  (WithID r id h = Panicked q <-> q = NilDereference /\ resource_url h r = None)
  /\ (WithAction r action h = Panicked q
      <-> q = NilDereference /\ resource_url h r = None)
  /\ (WithParameter r name value h = Panicked q
      <-> q = NilDereference /\ resource_url h r = None)
  /\ (Resource_String url_String r h = Panicked q
      <-> q = NilDereference /\ resource_url h r = None)
  /\ (Request http_Request url_String http_NewRequest r method body h
      = Panicked NilDereference
      <-> resource_url h r = None).
Proof.
  rewrite WithID_update, WithAction_update, WithParameter_update.
  split; [apply update_url_panics_iff|].
  split; [apply update_url_panics_iff|].
  split; [apply update_url_panics_iff|].
  split.
  - destruct (resource_url h r) as [v|] eqn:Hv.
    + rewrite (Resource_String_run _ _ _ _ Hv). split; [discriminate|]. now intros [_ E].
    + unfold Resource_String. rewrite (load_url_of_resource_panics _ h r Hv). split.
      * now intros [= <-].
      * now intros [-> _].
  - destruct (resource_url h r) as [v|] eqn:Hv.
    + rewrite (Request_run _ _ _ _ _ _ _ _ Hv). split; [|discriminate].
      destruct (http_NewRequest _ _ _); discriminate.
    + unfold Request. now rewrite (load_url_of_resource_panics _ h r Hv).
Qed.

(** X4: a call of the builder changes the URL object its resource points
    to: the resources that share the object all see the change, the others
    keep their URL, and no resource or URL is added or removed. *)
Theorem call_reaches_sharers (c : call) (h : heap) (r : ptr) (res : Resource)
    (v : net_url.URL) :
  resources h !! r = Some res ->
  urls h !! u res = Some v ->
  exists h',
    run_call c r h = Done r h'
    /\ resources h' = resources h
    /\ dom (urls h') = dom (urls h)
    /\ forall r' res',
         resources h !! r' = Some res' ->
         (u res' = u res -> resource_url h' r' = Some (call_url c v))
         /\ (u res' <> u res -> resource_url h' r' = resource_url h r').
Proof.
  intros Hr Hu. rewrite run_call_update.
  eexists. split; [apply (update_url_run _ h r res v Hr Hu)|]. simpl.
  split; [reflexivity|]. split; [apply dom_insert_lookup_L; now exists v|].
  intros r' res' Hr'. unfold resource_url. simpl. rewrite Hr'. simpl. split.
  - intros ->. apply lookup_insert_eq.
  - intros Hne. apply lookup_insert_ne. congruence.
Qed.

Lemma call_reaches_sharers_witness :
  exists h',
    run_call (CallWithID "lib-1") 1%positive shared_heap = Done 1%positive h'
    /\ resources h' = resources shared_heap
    /\ dom (urls h') = dom (urls shared_heap)
    /\ forall r' res',
         resources shared_heap !! r' = Some res' ->
         (u res' = u (mkResource 1%positive) ->
          resource_url h' r' = Some (call_url (CallWithID "lib-1") sdk_url))
         /\ (u res' <> u (mkResource 1%positive) ->
             resource_url h' r' = resource_url shared_heap r').
Proof.
  apply (call_reaches_sharers (CallWithID "lib-1") shared_heap 1%positive
           (mkResource 1%positive) sdk_url).
  - vm_compute. reflexivity.
  - vm_compute. reflexivity.
Defined.

(** The second resource of the shared heap sees what the first one did,
    the third does not. *)
Example sharing :
  match WithID 1%positive "lib-1" shared_heap with
  | Done _ h' =>
      (net_url.Path <$> resource_url h' 2%positive,
       net_url.Path <$> resource_url h' 3%positive)
  | Panicked _ => (None, None)
  end = (Some "/sdk/id:lib-1", Some "/sdk").
Proof. vm_compute. reflexivity. Qed.

Lemma append_empty_r (s : string) : s +:+ "" = s.
Proof. induction s as [|a s IH]; [reflexivity|]. rewrite append_cons. now f_equal. Qed.

Lemma call_url_chain c cs v :
  net_url.set_RawQuery (last_query cs (net_url.RawQuery (call_url c v)))
    (net_url.set_Path (net_url.Path (call_url c v) +:+ id_segments cs) (call_url c v))
  = net_url.set_RawQuery (last_query (c :: cs) (net_url.RawQuery v))
      (net_url.set_Path (net_url.Path v +:+ id_segments (c :: cs)) v).
Proof.
  destruct v, c; simpl; unfold net_url.set_RawQuery, net_url.set_Path; simpl;
    rewrite ?append_assoc; reflexivity.
Qed.

(** What a chain of calls does to its resource. *)
Lemma run_calls_resource (cs : list call) (h : heap) (r : ptr) (v : net_url.URL) :
  resource_url h r = Some v ->
  exists h',
    run_calls cs r h = Done r h'
    /\ resource_url h' r
       = Some (net_url.set_RawQuery (last_query cs (net_url.RawQuery v))
                 (net_url.set_Path (net_url.Path v +:+ id_segments cs) v))
    /\ resources h' = resources h
    /\ dom (urls h') = dom (urls h).
Proof.
  revert h v. induction cs as [|c cs IH]; intros h v Hv.
  - exists h. split; [reflexivity|]. split; [|split; reflexivity].
    rewrite Hv. f_equal. destruct v. unfold net_url.set_RawQuery, net_url.set_Path.
    simpl. now rewrite append_empty_r.
  - destruct (update_url_frame (call_url c) h r v Hv)
      as (h1 & res & Hrun & _ & _ & Hres & Hv1 & Hdom).
    destruct (IH h1 _ Hv1) as (h' & Hrun' & Hv' & Hres' & Hdom').
    exists h'. split.
    + change (run_calls (c :: cs) r) with (r' ← run_call c r; run_calls cs r').
      rewrite run_call_update. now rewrite (run_bind _ _ _ _ _ Hrun).
    + split; [|split; congruence].
      rewrite Hv'. f_equal. apply call_url_chain.
Qed.

(** X5: a chain of calls on a resource returns that resource; its path is
    the path it had followed by one segment [/id:] and id for each
    [WithID], in order, and its query is the one of the last [WithAction]
    or [WithParameter], or the one it had when there is none. The rest of
    the URL stays, and no resource or URL is added or removed. *)
Theorem run_calls_normal_form (cs : list call) (h : heap) (r : ptr) (v : net_url.URL) :
  resource_url h r = Some v ->
  exists h',
    run_calls cs r h = Done r h'
    /\ resource_url h' r
       = Some (net_url.set_RawQuery (last_query cs (net_url.RawQuery v))
                 (net_url.set_Path (net_url.Path v +:+ id_segments cs) v))
    /\ resources h' = resources h
    /\ dom (urls h') = dom (urls h).
Proof.
  revert h v. induction cs as [|c cs IH]; intros h v Hv.
  - exists h. split; [reflexivity|]. split; [|split; reflexivity].
    rewrite Hv. f_equal. destruct v. unfold net_url.set_RawQuery, net_url.set_Path.
    simpl. now rewrite append_empty_r.
  - destruct (update_url_frame (call_url c) h r v Hv)
      as (h1 & res & Hrun & _ & _ & Hres & Hv1 & Hdom).
    destruct (IH h1 _ Hv1) as (h' & Hrun' & Hv' & Hres' & Hdom').
    exists h'. split.
    + change (run_calls (c :: cs) r) with (r' ← run_call c r; run_calls cs r').
      rewrite run_call_update. now rewrite (run_bind _ _ _ _ _ Hrun).
    + split; [|split; congruence].
      rewrite Hv'. f_equal. apply call_url_chain.
Qed.

Lemma run_calls_normal_form_witness :
  exists h',
    run_calls [CallWithID "lib-1"; CallWithAction "sync"; CallWithID "item 2";
               CallWithParameter "library_id" "a&b"] 1%positive (one_resource sdk_url)
    = Done 1%positive h'
    /\ resource_url h' 1%positive
       = Some (net_url.set_RawQuery
                 (last_query [CallWithID "lib-1"; CallWithAction "sync";
                              CallWithID "item 2"; CallWithParameter "library_id" "a&b"]
                    (net_url.RawQuery sdk_url))
                 (net_url.set_Path
                    (net_url.Path sdk_url
                       +:+ id_segments [CallWithID "lib-1"; CallWithAction "sync";
                                        CallWithID "item 2";
                                        CallWithParameter "library_id" "a&b"])
                    sdk_url))
    /\ resources h' = resources (one_resource sdk_url)
    /\ dom (urls h') = dom (urls (one_resource sdk_url)).
Proof.
  apply (run_calls_normal_form
           [CallWithID "lib-1"; CallWithAction "sync"; CallWithID "item 2";
            CallWithParameter "library_id" "a&b"] (one_resource sdk_url) 1%positive sdk_url).
  vm_compute. reflexivity.
Defined.

Example chain_of_four :
  match run_calls [CallWithID "lib-1"; CallWithAction "sync"; CallWithID "item 2";
                   CallWithParameter "library_id" "a&b"] 1%positive (one_resource sdk_url)
  with
  | Done r h =>
      (net_url.Path <$> resource_url h r, net_url.RawQuery <$> resource_url h r)
  | Panicked _ => (None, None)
  end = (Some "/sdk/id:lib-1/id:item 2", Some "library_id=a%26b").
Proof. vm_compute. reflexivity. Qed.

(** X6: setting the id and setting the query can be done in either
    order: [WithID] commutes with [WithAction] and with [WithParameter],
    heap and all, also when they panic. *)
Theorem id_and_query_commute (h : heap) (r : ptr) (id action name value : string) :
  (r1 ← WithID r id; WithAction r1 action) h
  = (r1 ← WithAction r action; WithID r1 id) h
  /\ (r1 ← WithID r id; WithParameter r1 name value) h
     = (r1 ← WithParameter r name value; WithID r1 id) h.
Proof.
  assert (Hfuse : forall f g, (r1 ← update_url f r; update_url g r1) h
                              = update_url (fun v => g (f v)) r h)
    by (intros; apply update_url_twice).
  split.
  - assert (E1 : (r1 ← WithID r id; WithAction r1 action) h
                 = (r1 ← update_url (call_url (CallWithID id)) r;
                    update_url (call_url (CallWithAction action)) r1) h).
    { unfold mbind, M_bind, bind. rewrite <- (run_call_update (CallWithID id)).
      simpl. destruct (WithID r id h); [|reflexivity].
      now rewrite <- (run_call_update (CallWithAction action)). }
    assert (E2 : (r1 ← WithAction r action; WithID r1 id) h
                 = (r1 ← update_url (call_url (CallWithAction action)) r;
                    update_url (call_url (CallWithID id)) r1) h).
    { unfold mbind, M_bind, bind. rewrite <- (run_call_update (CallWithAction action)).
      simpl. destruct (WithAction r action h); [|reflexivity].
      now rewrite <- (run_call_update (CallWithID id)). }
    rewrite E1, E2, !Hfuse. apply update_url_ext. now intros [].
  - assert (E1 : (r1 ← WithID r id; WithParameter r1 name value) h
                 = (r1 ← update_url (call_url (CallWithID id)) r;
                    update_url (call_url (CallWithParameter name value)) r1) h).
    { unfold mbind, M_bind, bind. rewrite <- (run_call_update (CallWithID id)).
      simpl. destruct (WithID r id h); [|reflexivity].
      now rewrite <- (run_call_update (CallWithParameter name value)). }
    assert (E2 : (r1 ← WithParameter r name value; WithID r1 id) h
                 = (r1 ← update_url (call_url (CallWithParameter name value)) r;
                    update_url (call_url (CallWithID id)) r1) h).
    { unfold mbind, M_bind, bind.
      rewrite <- (run_call_update (CallWithParameter name value)).
      simpl. destruct (WithParameter r name value h); [|reflexivity].
      now rewrite <- (run_call_update (CallWithID id)). }
    rewrite E1, E2, !Hfuse. apply update_url_ext. now intros [].
Qed.

End BuilderCalls.

Section Pipeline.

Import internal.

Variable http_Request : Type.
Variable url_String : net_url.URL -> string.
Variable http_NewRequest : string -> string -> io.Reader -> result http_Request.

Lemma Request_by_String h r method body :
  Request http_Request url_String http_NewRequest r method body h
  = match Resource_String url_String r h with
    | Done s _ =>
        match http_NewRequest method s (body_reader body) with
        | Ok req => Done req h
        | Err err => Panicked (PanicError err)
        end
    | Panicked q => Panicked q
    end.
Proof.
  destruct (resource_url h r) as [v|] eqn:Hv.
  - rewrite (Request_run _ _ _ _ _ _ _ _ Hv), (Resource_String_run _ _ _ _ Hv).
    reflexivity.
  - unfold Request, Resource_String.
    now rewrite !(load_url_of_resource_panics _ h r Hv).
Qed.

Lemma build_run {C} `{CloneURL C} (c : C) path cs h p h1 b :
  CloneURL_URL c h = Done p h1 ->
  urls h1 !! p = Some b ->
  exists r h3,
    (r ← URL c path; run_calls cs r) h = Done r h3
    /\ resource_url h3 r = Some (built_url b path cs).
Proof.
  intros Hc Hb.
  destruct (URL_run_resource c path h p h1 b Hc Hb) as (r & h2 & Hrun & _ & Hv).
  destruct (run_calls_resource cs h2 r _ Hv) as (h3 & Hrun' & Hv' & _).
  exists r, h3. split.
  - now rewrite (run_bind _ _ _ _ _ Hrun).
  - rewrite Hv'. reflexivity.
Qed.

End Pipeline.

(** X7: [Request] hands [http.NewRequest] the method, the text [String]
    returns for the resource and the reader of the first body; it panics
    as [String] does on a nil resource, returns with the heap as it was, and
    pays no attention to a second body. *)
Theorem Request_uses_String (http_Request : Type) (url_String : net_url.URL -> string)
    (http_NewRequest : string -> string -> io.Reader -> result http_Request)
    (h : heap) (r : ptr) (method : string) (body : list encoding_json.value) :
  internal.Request http_Request url_String http_NewRequest r method body h
  = match internal.Resource_String url_String r h with
    | Done s _ =>
        match http_NewRequest method s (body_reader body) with
        | Ok req => Done req h
        | Err err => Panicked (PanicError err)
        end
    | Panicked q => Panicked q
    end
  /\ (forall req h',
         internal.Request http_Request url_String http_NewRequest r method body h
         = Done req h' -> h' = h)
  /\ (forall b rest,
         internal.Request http_Request url_String http_NewRequest r method (b :: rest) h
         = internal.Request http_Request url_String http_NewRequest r method [b] h).
Proof.
  split; [apply Request_by_String|]. split.
  - intros req h'. rewrite Request_by_String.
    destruct (internal.Resource_String url_String r h); [|discriminate].
    destruct (http_NewRequest _ _ _); [|discriminate]. now intros [= _ <-].
  - intros b rest. now rewrite !Request_by_String.
Qed.

(** X8: the whole construction. A resource made by [URL] from the base
    URL [b] and taken through a chain of calls has the URL of [b] with
    the path [/rest], the path given and the id segments of the chain, and
    the query of the last query call of the chain (the one of [b] if there
    is none); [String] returns its text, and [Request] hands that text to
    [http.NewRequest] and returns what it builds or panics with its
    error. *)
Theorem build_and_request {C} `{internal.CloneURL C} (c : C) (path : string)
    (cs : list call) (http_Request : Type) (url_String : net_url.URL -> string)
    (http_NewRequest : string -> string -> io.Reader -> result http_Request)
    (method : string) (body : list encoding_json.value) h p h1 b :
  internal.CloneURL_URL c h = Done p h1 ->
  urls h1 !! p = Some b ->
  exists r h3,
    (r ← internal.URL c path; run_calls cs r) h = Done r h3
    /\ resource_url h3 r = Some (built_url b path cs)
    /\ internal.Resource_String url_String r h3
       = Done (url_String (built_url b path cs)) h3
    /\ internal.Request http_Request url_String http_NewRequest r method body h3
       = match http_NewRequest method (url_String (built_url b path cs))
                 (body_reader body) with
         | Ok req => Done req h3
         | Err err => Panicked (PanicError err)
         end.
Proof.
  intros Hc Hb.
  destruct (build_run c path cs h p h1 b Hc Hb) as (r & h3 & Hrun & Hv).
  exists r, h3. split; [exact Hrun|]. split; [exact Hv|].
  split; [apply Resource_String_run, Hv|].
  now rewrite Request_by_String, (Resource_String_run _ _ _ _ Hv).
Qed.

Lemma build_and_request_witness :
  exists r h3,
    (r ← internal.URL sdk_client internal.LibraryPath;
     run_calls [CallWithID "lib-1"; CallWithAction "sync"] r) empty_heap = Done r h3
    /\ resource_url h3 r
       = Some (built_url sdk_url internal.LibraryPath
                 [CallWithID "lib-1"; CallWithAction "sync"])
    /\ internal.Resource_String net_http.String_ r h3
       = Done (net_http.String_
                 (built_url sdk_url internal.LibraryPath
                    [CallWithID "lib-1"; CallWithAction "sync"])) h3
    /\ internal.Request net_http.Request net_http.String_ net_http.NewRequest r
         "POST" [] h3
       = match net_http.NewRequest "POST"
                 (net_http.String_
                    (built_url sdk_url internal.LibraryPath
                       [CallWithID "lib-1"; CallWithAction "sync"]))
                 (body_reader []) with
         | Ok req => Done req h3
         | Err err => Panicked (PanicError err)
         end.
Proof.
  apply (build_and_request sdk_client internal.LibraryPath
           [CallWithID "lib-1"; CallWithAction "sync"]
           net_http.Request net_http.String_ net_http.NewRequest "POST" []
           empty_heap 1%positive (mkHeap {[ 1%positive := sdk_url ]} ∅) sdk_url).
  - vm_compute. reflexivity.
  - vm_compute. reflexivity.
Defined.

(** The request of the example, with the stand-in HTTP layer. *)
Example library_sync_request :
  match (r ← internal.URL sdk_client internal.LibraryPath;
         r ← run_calls [CallWithID "lib-1"; CallWithAction "sync"] r;
         internal.Request net_http.Request net_http.String_ net_http.NewRequest r
           "POST" []) empty_heap with
  | Done req _ => Some (net_http.Method req, net_http.URL req)
  | Panicked _ => None
  end
  = Some ("POST", "https://host/rest/com/vmware/content/library/id:lib-1?~action=sync").
Proof. vm_compute. reflexivity. Qed.

(** * Further properties of the query encoding *)

Section QueryEncoding.

Import internal.

Lemma count_char_app c s t :
  count_char c (s +:+ t) = count_char c s + count_char c t.
Proof.
  induction s as [|d s IH]; [reflexivity|]. rewrite append_cons. simpl. rewrite IH. lia.
Qed.

Lemma count_char_safe c s :
  query_safe c = false -> all_chars query_safe s = true -> count_char c s = 0.
Proof.
  intros Hc. induction s as [|d s IH]; [reflexivity|]. simpl.
  intros Hs. apply andb_true_iff in Hs as [Hd Hs].
  rewrite (IH Hs). destruct (Ascii.eqb_spec c d) as [->|_]; [congruence|reflexivity].
Qed.

Lemma count_char_escaped c s :
  query_safe c = false -> count_char c (net_url.QueryEscape s) = 0.
Proof. intros Hc. apply count_char_safe; [exact Hc|apply QueryEscape_safe]. Qed.

Lemma call_run c h r v :
  resource_url h r = Some v ->
  exists h', run_call c r h = Done r h' /\ resource_url h' r = Some (call_url c v).
Proof.
  intros Hv. rewrite run_call_update.
  destruct (update_url_frame (call_url c) h r v Hv) as (h' & res & Hrun & _ & _ & _ & Hv' & _).
  now exists h'.
Qed.

Lemma separators_unsafe d : mem_char d "&#? ;/" = true -> query_safe d = false.
Proof. destruct d as [[] [] [] [] [] [] [] []]; intros Hd; try discriminate Hd; reflexivity. Qed.

(** X9: the query [WithParameter] or [WithAction] sets holds one [=] and
    no [&], [#], [?], [;], [/] or space, whatever the name, the value or the
    action: no argument can add a parameter or end the query. *)
Theorem query_is_one_pair (h : heap) (r : ptr) (v : net_url.URL)
    (name value action : string) :
  resource_url h r = Some v ->
  (exists h' w,
      WithParameter r name value h = Done r h'
      /\ resource_url h' r = Some w
      /\ count_char "=" (net_url.RawQuery w) = 1
      /\ forall d, mem_char d "&#? ;/" = true -> count_char d (net_url.RawQuery w) = 0)
  /\ (exists h' w,
      WithAction r action h = Done r h'
      /\ resource_url h' r = Some w
      /\ count_char "=" (net_url.RawQuery w) = 1
      /\ forall d, mem_char d "&#? ;/" = true -> count_char d (net_url.RawQuery w) = 0).
Proof.
  intros Hv. split.
  - destruct (call_run (CallWithParameter name value) h r v Hv) as (h' & Hrun & Hw).
    exists h', (call_url (CallWithParameter name value) v).
    split; [exact Hrun|]. split; [exact Hw|]. simpl. split.
    + rewrite !count_char_app, !count_char_escaped; reflexivity.
    + intros d Hd.
      rewrite !count_char_app, !count_char_escaped by now apply separators_unsafe.
      destruct d as [[] [] [] [] [] [] [] []]; try discriminate Hd; reflexivity.
  - destruct (call_run (CallWithAction action) h r v Hv) as (h' & Hrun & Hw).
    exists h', (call_url (CallWithAction action) v).
    split; [exact Hrun|]. split; [exact Hw|]. simpl.
    change ("~action=" +:+ net_url.QueryEscape action)
      with ("~action" +:+ "=" +:+ net_url.QueryEscape action).
    split.
    + rewrite !count_char_app, count_char_escaped; reflexivity.
    + intros d Hd.
      rewrite !count_char_app, count_char_escaped by now apply separators_unsafe.
      destruct d as [[] [] [] [] [] [] [] []]; try discriminate Hd; reflexivity.
Qed.

Lemma query_is_one_pair_witness :
  (exists h' w,
      WithParameter 1%positive "a=b" "c&d#e" (one_resource sdk_url) = Done 1%positive h'
      /\ resource_url h' 1%positive = Some w
      /\ count_char "=" (net_url.RawQuery w) = 1
      /\ forall d, mem_char d "&#? ;/" = true -> count_char d (net_url.RawQuery w) = 0)
  /\ (exists h' w,
      WithAction 1%positive "x&~action=y" (one_resource sdk_url) = Done 1%positive h'
      /\ resource_url h' 1%positive = Some w
      /\ count_char "=" (net_url.RawQuery w) = 1
      /\ forall d, mem_char d "&#? ;/" = true -> count_char d (net_url.RawQuery w) = 0).
Proof.
  apply (query_is_one_pair (one_resource sdk_url) 1%positive sdk_url
           "a=b" "c&d#e" "x&~action=y").
  vm_compute. reflexivity.
Defined.

Lemma QueryUnescape_byte c t :
  QueryUnescape (query_byte c +:+ t) = option_map (String c) (QueryUnescape t).
Proof. destruct c as [[] [] [] [] [] [] [] []]; reflexivity. Qed.

Lemma QueryUnescape_QueryEscape s : QueryUnescape (net_url.QueryEscape s) = Some s.
Proof.
  induction s as [|c s IH]; [reflexivity|].
  now rewrite QueryEscape_cons, QueryUnescape_byte, IH.
Qed.

Lemma cut_equals_pair a b :
  count_char "=" a = 0 -> cut_equals (a +:+ "=" +:+ b) = (a, b).
Proof.
  induction a as [|c a IH]; [reflexivity|]. rewrite append_cons.
  change (count_char "=" (String c a))
    with ((if Ascii.eqb "=" c then 1 else 0) + count_char "=" a).
  change (cut_equals (String c (a +:+ "=" +:+ b)))
    with (if Ascii.eqb c "=" then (EmptyString, a +:+ "=" +:+ b)
          else let '(x, y) := cut_equals (a +:+ "=" +:+ b) in (String c x, y)).
  rewrite (Ascii.eqb_sym c "=").
  destruct (Ascii.eqb "=" c); [discriminate|].
  intros Ha. now rewrite (IH Ha).
Qed.

Lemma parse_pair_escaped k v :
  parse_pair (net_url.QueryEscape k +:+ "=" +:+ net_url.QueryEscape v) = Some (k, v).
Proof.
  unfold parse_pair. rewrite cut_equals_pair by now apply count_char_escaped.
  now rewrite !QueryUnescape_QueryEscape.
Qed.

(** X10: the query a call sets can be read back: [url.QueryUnescape]
    undoes the escaping, and parsing the query [WithParameter] sets gives
    the name and the value, parsing the one [WithAction] sets the key
    [~action] and the action. Different arguments never give the same
    query. *)
Theorem query_reads_back (h : heap) (r : ptr) (v : net_url.URL)
    (name value action : string) :
  resource_url h r = Some v ->
  (exists h' w,
      WithParameter r name value h = Done r h'
      /\ resource_url h' r = Some w
      /\ parse_pair (net_url.RawQuery w) = Some (name, value))
  /\ (exists h' w,
      WithAction r action h = Done r h'
      /\ resource_url h' r = Some w
      /\ parse_pair (net_url.RawQuery w) = Some ("~action", action))
  /\ (forall s, QueryUnescape (net_url.QueryEscape s) = Some s).
Proof.
  intros Hv. split; [|split; [|apply QueryUnescape_QueryEscape]].
  - destruct (call_run (CallWithParameter name value) h r v Hv) as (h' & Hrun & Hw).
    exists h', (call_url (CallWithParameter name value) v).
    split; [exact Hrun|]. split; [exact Hw|]. apply parse_pair_escaped.
  - destruct (call_run (CallWithAction action) h r v Hv) as (h' & Hrun & Hw).
    exists h', (call_url (CallWithAction action) v).
    split; [exact Hrun|]. split; [exact Hw|].
    apply (parse_pair_escaped "~action" action).
Qed.

Lemma query_reads_back_witness :
  (exists h' w,
      WithParameter 1%positive "a=b" "c&d e" (one_resource sdk_url) = Done 1%positive h'
      /\ resource_url h' 1%positive = Some w
      /\ parse_pair (net_url.RawQuery w) = Some ("a=b", "c&d e"))
  /\ (exists h' w,
      WithAction 1%positive "x&~action=y" (one_resource sdk_url) = Done 1%positive h'
      /\ resource_url h' 1%positive = Some w
      /\ parse_pair (net_url.RawQuery w) = Some ("~action", "x&~action=y"))
  /\ (forall s, QueryUnescape (net_url.QueryEscape s) = Some s).
Proof.
  apply (query_reads_back (one_resource sdk_url) 1%positive sdk_url
           "a=b" "c&d e" "x&~action=y").
  vm_compute. reflexivity.
Defined.

Lemma query_byte_cases c :
  (unreserved c = true /\ query_byte c = String c "")
  \/ (unreserved c = false /\ c = " "%char /\ query_byte c = "+")
  \/ (unreserved c = false
      /\ exists h l, query_byte c = String "%" (String h (String l ""))).
Proof.
  destruct c as [[] [] [] [] [] [] [] []];
    first [ left; split; reflexivity
          | right; left; repeat split; reflexivity
          | right; right; split; [reflexivity|]; do 2 eexists; reflexivity ].
Qed.

Lemma QueryEscape_length s :
  String.length s <= String.length (net_url.QueryEscape s) <= 3 * String.length s.
Proof.
  induction s as [|c s IH]; [simpl; lia|].
  rewrite QueryEscape_cons, length_append. simpl.
  destruct (query_byte_cases c) as [[_ ->]|[(_ & _ & ->)|(_ & h & l & ->)]]; simpl; lia.
Qed.

(** X11: query escaping leaves a string as it is exactly when the string
    is made of letters, digits and [-_.~]; it never makes a string shorter,
    and at most three times as long. *)
Theorem QueryEscape_identity (s : string) :
  (net_url.QueryEscape s = s <-> all_chars unreserved s = true)
  /\ String.length s <= String.length (net_url.QueryEscape s) <= 3 * String.length s.
Proof.
  split; [|apply QueryEscape_length].
  induction s as [|c s IH]; [easy|].
  rewrite QueryEscape_cons. simpl.
  destruct (query_byte_cases c) as [[Hc ->]|[(Hc & -> & ->)|(Hc & h & l & ->)]];
    rewrite Hc; simpl.
  - rewrite <- IH. split; [now intros [= E]|now intros ->].
  - split; discriminate.
  - split; [|discriminate]. rewrite !append_cons. intros [= _ E].
    pose proof (QueryEscape_length s) as Hlen.
    apply (f_equal String.length) in E. simpl in E.
    rewrite ?length_append in E. simpl in E. lia.
Qed.

End QueryEncoding.

(** * Further properties of the body encoder *)

Section BodyReader.

Import internal.

Lemma after_reads_cons r n sizes :
  after_reads r (n :: sizes) = after_reads (snd (io.Reader_Read r n)) sizes.
Proof. reflexivity. Qed.

Lemma read_trace_cons r n sizes :
  read_trace r (n :: sizes)
  = fst (io.Reader_Read r n) :: read_trace (snd (io.Reader_Read r n)) sizes.
Proof. simpl. now destruct (io.Reader_Read r n). Qed.

(** One read of a buffer: what it delivers and what it leaves make up
    what was there. *)
Lemma Buffer_read s n :
  exists res rest,
    io.Reader_Read (io.mkReader (io.mkBuffer s)) n = (res, io.mkReader (io.mkBuffer rest))
    /\ io.data res +:+ rest = s
    /\ read_ok n res
    /\ (io.err res = Some EOF -> s = "").
Proof.
  destruct s as [|c s].
  - exists (io.mkRead 0 "" (match n with O => None | S _ => Some EOF end)), "".
    split; [reflexivity|]. split; [reflexivity|]. split; [|reflexivity].
    split; [reflexivity|]. split; [simpl; lia|]. destruct n; auto.
  - set (k := Nat.min n (String.length (String c s))).
    exists (io.mkRead (Z.of_nat k) (take_bytes k (String c s)) None),
           (drop_bytes k (String c s)).
    split; [reflexivity|]. split; [apply take_drop_bytes|]. split; [|discriminate].
    assert (Hk : String.length (take_bytes k (String c s)) = k)
      by (apply take_bytes_length; subst k; lia).
    split; [simpl; now rewrite Hk|]. split; [simpl io.data; rewrite Hk; subst k; lia|].
    now left.
Qed.

Lemma Buffer_reads sizes :
  forall s,
    exists rest,
      after_reads (io.mkReader (io.mkBuffer s)) sizes = io.mkReader (io.mkBuffer rest)
      /\ trace_data (read_trace (io.mkReader (io.mkBuffer s)) sizes) +:+ rest = s
      /\ Forall2 read_ok sizes (read_trace (io.mkReader (io.mkBuffer s)) sizes).
Proof.
  induction sizes as [|n sizes IH]; intros s.
  - exists s. repeat split. constructor.
  - destruct (Buffer_read s n) as (res & rest1 & Hread & Hdata & Hok & _).
    destruct (IH rest1) as (rest & Hafter & Htrace & Hall).
    exists rest. rewrite after_reads_cons, read_trace_cons, Hread. simpl.
    split; [exact Hafter|]. split.
    + rewrite append_assoc, Htrace. exact Hdata.
    + now constructor.
Qed.

(** X12: when the body serializes, the reader [encode] returns keeps the
    contract of [io.Reader] on every read, whatever the sizes of the
    buffers: the count is the number of bytes delivered and at most the
    size of the buffer, and the only error is [EOF]. The bytes delivered so
    far and the bytes still unread always make up the text of the body and
    its newline. A reader that holds an error answers outside that
    contract. *)
Theorem encode_reader_contract (body : encoding_json.value) (t : string)
    (sizes : list nat) :
  encoding_json.Marshal body = Ok t ->
  (exists rest,
      after_reads (encode body) sizes = io.mkReader (io.mkBuffer rest)
      /\ trace_data (read_trace (encode body) sizes) +:+ rest = t +:+ newline
      /\ Forall2 read_ok sizes (read_trace (encode body) sizes))
  /\ (forall e n, ~ read_ok n (fst (io.Reader_Read (io.mkReader (mkErrorReader e)) n))).
Proof.
  intros Ht. split.
  - rewrite (encode_Ok _ _ Ht). apply Buffer_reads.
  - intros e n [Hcount _]. discriminate Hcount.
Qed.

Lemma encode_reader_contract_witness :
  (exists rest,
      after_reads (encode (Association_value datacenter_association)) [7; 0; 100; 3]
      = io.mkReader (io.mkBuffer rest)
      /\ trace_data (read_trace (encode (Association_value datacenter_association))
                       [7; 0; 100; 3]) +:+ rest
         = dq "{'object_id':{'type':'Datacenter','id':'dc-1'}}" +:+ newline
      /\ Forall2 read_ok [7; 0; 100; 3]
           (read_trace (encode (Association_value datacenter_association))
              [7; 0; 100; 3]))
  /\ (forall e n, ~ read_ok n (fst (io.Reader_Read (io.mkReader (mkErrorReader e)) n))).
Proof.
  apply (encode_reader_contract (Association_value datacenter_association)
           (dq "{'object_id':{'type':'Datacenter','id':'dc-1'}}") [7; 0; 100; 3]).
  vm_compute. reflexivity.
Defined.

(** The reads of the example: seven bytes, none, the rest, and the end. *)
Example reads_of_the_example :
  map (fun res => (io.count res, io.err res))
      (read_trace (encode (Association_value datacenter_association)) [7; 0; 100; 3])
  = [(7%Z, None); (0%Z, None); (41%Z, None); (0%Z, Some EOF)].
Proof. vm_compute. reflexivity. Qed.

End BodyReader.

Section OneLine.

Import encoding_json.

















End OneLine.

Section Payloads.

Import encoding_json.

Lemma Unmarshal_Marshal v t :
  Marshal v = Ok t ->
  exists j, to_json v = Ok j /\ Unmarshal (t +:+ newline) = Some j.
Proof.
  intros Ht. destruct (value_decodes_back v t Ht) as (j & Hj & Hparse).
  exists j. split; [exact Hj|].
  unfold Unmarshal. rewrite Hparse; [reflexivity|now right; right; right|].
  rewrite length_append. lia.
Qed.

Lemma valid_text_ascii n :
  forall s, String.length s <= n -> all_chars is_ascii s = true -> valid_text n s = s.
Proof.
  induction n as [|n IH]; intros [|b s] Hlen Hs; try reflexivity; [simpl in Hlen; lia|].
  rewrite valid_text_cons. simpl in Hs. apply andb_true_iff in Hs as [Hb Hs].
  unfold is_ascii in Hb. change utf8.RuneSelf with 128%N. rewrite Hb.
  rewrite IH; [reflexivity|simpl in Hlen; lia|exact Hs].
Qed.

Lemma text_ascii s : all_chars is_ascii s = true -> text s = s.
Proof. intros Hs. apply valid_text_ascii; [lia|exact Hs]. Qed.

Lemma Marshal_AssociatedObject o :
  Marshal (internal.AssociatedObject_value o)
  = Ok (dq "{'type':" +:+ quote (internal.Type_ o)
          +:+ dq ",'id':" +:+ quote (internal.Value o) +:+ "}").
Proof.
  unfold internal.AssociatedObject_value. rewrite Marshal_struct.
  rewrite !Marshal_members_cons. simpl. rewrite !append_assoc. reflexivity.
Qed.

Lemma Marshal_Association_Some o :
  Marshal (internal.Association_value (internal.mkAssociation (Some o)))
  = Ok (dq "{'object_id':{'type':" +:+ quote (internal.Type_ o)
          +:+ dq ",'id':" +:+ quote (internal.Value o) +:+ "}}").
Proof.
  unfold internal.Association_value, internal.AssociatedObject_value.
  rewrite Marshal_struct. rewrite Marshal_members_cons. simpl.
  rewrite !append_assoc. reflexivity.
Qed.

(** X14: the payloads of the package always serialize: for an
    [AssociatedObject] and for an [Association], with or without an
    [ObjectID], [encode] returns the reader of a text and never the reader
    of an error. The association [NewAssociation] makes of a reference is
    written with the member [object_id], holding the type and the value of
    the reference under [type] and [id]. *)
Theorem associations_serialize :
  (forall o : internal.AssociatedObject,
      exists t, Marshal (internal.AssociatedObject_value o) = Ok t
                /\ internal.encode (internal.AssociatedObject_value o)
                   = io.mkReader (io.mkBuffer (t +:+ newline)))
  /\ (forall a : internal.Association,
         exists t, Marshal (internal.Association_value a) = Ok t
                   /\ internal.encode (internal.Association_value a)
                      = io.mkReader (io.mkBuffer (t +:+ newline)))
  /\ (forall (A : Type) (impl : mo.Reference A) (ref : A),
         Marshal (internal.Association_value (internal.NewAssociation ref))
         = Ok (dq "{'object_id':{'type':" +:+ quote (types.Type_ (mo.Reference_ ref))
                 +:+ dq ",'id':" +:+ quote (types.Value (mo.Reference_ ref)) +:+ "}}")).
Proof.
  split; [|split].
  - intros o. eexists. split; [apply Marshal_AssociatedObject|].
    apply encode_Ok, Marshal_AssociatedObject.
  - intros [[o|]].
    + eexists. split; [apply Marshal_Association_Some|].
      apply encode_Ok, Marshal_Association_Some.
    + exists "{}". split; reflexivity.
  - intros A impl ref. unfold internal.NewAssociation.
    apply (Marshal_Association_Some
             (internal.AssociatedObject_of (mo.Reference_ ref))).
Qed.

(** X15: an association whose type and id are ASCII reads back from the
    body [encode] writes: the decoder finds the object [object_id] with
    the type under [type] and the id under [id], byte for byte; without an
    [ObjectID] it finds the empty object. *)
Theorem association_reads_back (o : internal.AssociatedObject) :
  all_chars is_ascii (internal.Type_ o) = true ->
  all_chars is_ascii (internal.Value o) = true ->
  (exists t,
      internal.encode (internal.Association_value (internal.mkAssociation (Some o)))
      = io.mkReader (io.mkBuffer (t +:+ newline))
      /\ Unmarshal (t +:+ newline)
         = Some (JObject [("object_id",
                           JObject [("type", JString (internal.Type_ o));
                                    ("id", JString (internal.Value o))])]))
  /\ (exists t,
      internal.encode (internal.Association_value (internal.mkAssociation None))
      = io.mkReader (io.mkBuffer (t +:+ newline))
      /\ Unmarshal (t +:+ newline) = Some (JObject [])).
Proof.
  intros Ht Hv. split.
  - pose proof (Marshal_Association_Some o) as Hm.
    destruct (Unmarshal_Marshal _ _ Hm) as (j & Hj & Hu).
    eexists. split; [apply encode_Ok, Hm|]. rewrite Hu. f_equal.
    assert (E : to_json (internal.Association_value (internal.mkAssociation (Some o)))
                = Ok (JObject [("object_id",
                                JObject [("type", JString (text (internal.Type_ o)));
                                         ("id", JString (text (internal.Value o)))])]))
      by reflexivity.
    rewrite E in Hj. injection Hj as <-.
    now rewrite (text_ascii _ Ht), (text_ascii _ Hv).
  - exists "{}". split; reflexivity.
Qed.

Lemma association_reads_back_witness :
  (exists t,
      internal.encode (internal.Association_value datacenter_association)
      = io.mkReader (io.mkBuffer (t +:+ newline))
      /\ Unmarshal (t +:+ newline)
         = Some (JObject [("object_id",
                           JObject [("type", JString "Datacenter");
                                    ("id", JString "dc-1")])]))
  /\ (exists t,
      internal.encode (internal.Association_value (internal.mkAssociation None))
      = io.mkReader (io.mkBuffer (t +:+ newline))
      /\ Unmarshal (t +:+ newline) = Some (JObject [])).
Proof.
  apply (association_reads_back (internal.mkAssociatedObject "Datacenter" "dc-1"));
    reflexivity.
Defined.


End Payloads.
